(** * Forecast-accuracy metrics of the S&OP panel ([sop_main.py])

    A shallow embedding of [generate_data], [calculate_metrics] and the
    error histogram of the analysis tab, with the numeric semantics the
    program gets from NumPy and pandas: 64-bit integers that wrap around,
    IEEE 754 binary64 floating point, and data frames as maps from column
    names to columns; and of the two-decimal figures and the base64 text
    of the download link.  The PDF bytes themselves and the page layout
    are left to FPDF and Streamlit. *)

From Stdlib Require Import ZArith List Bool Lia Permutation Sorted.
From Stdlib Require Import Ascii String DecimalString.
From Stdlib Require Import Floats.SpecFloat.
From stdpp Require Import gmap strings.

Local Open Scope Z_scope.

(** ** Binary64 arithmetic *)

Module F64.

Definition prec : Z := 53.
Definition emax : Z := 1024.

Definition float : Type := spec_float.

Definition zero : float := S754_zero false.
Definition nan : float := S754_nan.
Definition inf : float := S754_infinity false.

Definition add : float -> float -> float := SFadd prec emax.
Definition sub : float -> float -> float := SFsub prec emax.
Definition mul : float -> float -> float := SFmul prec emax.
Definition div : float -> float -> float := SFdiv prec emax.
Definition abs : float -> float := SFabs.
Definition ltb : float -> float -> bool := SFltb.
Definition eqb : float -> float -> bool := SFeqb.

(** Conversion of an integer to the nearest double (ties to even). *)
Definition of_int (z : Z) : float := binary_normalize prec emax z 0 false.

Definition is_nan (x : float) : bool :=
  match x with S754_nan => true | _ => false end.

Definition is_inf (x : float) : bool :=
  match x with S754_infinity _ => true | _ => false end.

Definition is_finite (x : float) : bool :=
  match x with S754_zero _ | S754_finite _ _ _ => true | _ => false end.

(** [rint]: round to the nearest integral double, ties to even, keeping
    the sign of a zero result. *)
Definition rint (x : float) : float :=
  match x with
  | S754_finite s m e =>
      if 0 <=? e then x
      else
        let k := - e in
        let q := Z.shiftr (Zpos m) k in
        let r := Zpos m - Z.shiftl q k in
        let half := Z.shiftl 1 (k - 1) in
        let q' := if r <? half then q
                  else if half <? r then q + 1
                  else if Z.even q then q else q + 1 in
        binary_normalize prec emax (if s then - q' else q') 0 s
  | _ => x
  end.

(** Truncation towards zero, as a C cast does it. *)
Definition trunc (x : float) : option Z :=
  match x with
  | S754_zero _ => Some 0
  | S754_finite s m e =>
      let t := if 0 <=? e then Z.shiftl (Zpos m) e
               else Z.shiftr (Zpos m) (- e) in
      Some (if s then - t else t)
  | _ => None
  end.

End F64.

Abbreviation float := F64.float.

(** ** 64-bit integers *)

Definition int64_min : Z := - 2 ^ 63.
Definition int64_max : Z := 2 ^ 63 - 1.

Definition in_int64 (z : Z) : Prop := int64_min <= z <= int64_max.

(** Two's-complement wrap-around of an exact result. *)
Definition wrap64 (z : Z) : Z := (z + 2 ^ 63) mod 2 ^ 64 - 2 ^ 63.

(** [astype(int)] on a double: truncation; a value that has no 64-bit
    image (NaN, infinities, out of range) becomes the x86-64 "integer
    indefinite" [-2^63]. *)
Definition float_to_int64 (x : float) : Z :=
  match F64.trunc x with
  | Some t => if (int64_min <=? t) && (t <=? int64_max) then t else int64_min
  | None => int64_min
  end.

(** ** Columns, frames and Python exceptions *)

Inductive column : Type :=
| Int64 (xs : list Z)
| Float64 (xs : list float)
| Datetime64 (xs : list Z).   (* days since 1970-01-01 *)

Definition col_len (c : column) : nat :=
  match c with
  | Int64 xs => length xs
  | Float64 xs => length xs
  | Datetime64 xs => length xs
  end.

Definition is_numeric (c : column) : bool :=
  match c with Datetime64 _ => false | _ => true end.

Abbreviation DataFrame := (gmap string column).

Inductive exn : Type :=
| KeyError (key : string)
| TypeError
| ValueError (msg : string).

(** The error monad the program runs in. *)
Definition result (A : Type) : Type := exn + A.

Definition ret {A} (a : A) : result A := inr a.
Definition raise {A} (e : exn) : result A := inl e.
Definition bind {A B} (m : result A) (k : A -> result B) : result B :=
  match m with inl e => inl e | inr a => k a end.

Declare Scope py_scope.
Delimit Scope py_scope with py.
Notation "x <- m ;; k" := (bind m (fun x => k))
  (at level 100, m at next level, right associativity) : py_scope.
Local Open Scope py_scope.

Definition raises {A} (r : result A) : Prop :=
  match r with inl _ => True | inr _ => False end.

(** [df[key]] *)
Definition getitem (df : DataFrame) (key : string) : result column :=
  match df !! key with
  | Some c => ret c
  | None => raise (KeyError key)
  end.

(** [df[key] = c] *)
Definition setitem (df : DataFrame) (key : string) (c : column) : DataFrame :=
  <[key := c]> df.

(** ** Series arithmetic (pandas / NumPy) *)

(** The values of a numeric column as doubles (integers are promoted). *)
Definition as_floats (c : column) : list float :=
  match c with
  | Int64 xs => map F64.of_int xs
  | Float64 xs => xs
  | Datetime64 _ => []
  end.

(** [a - b], element by element.  Two integer columns stay integer and
    wrap; a float operand promotes the other one.  pandas rejects the
    subtraction of a datetime and a number with a [TypeError]; for two
    datetime columns it is the division of [calculate_metrics], two lines
    further, that raises it, so that the caller sees the same exception. *)
Definition series_sub (a b : column) : result column :=
  match a, b with
  | Datetime64 _, _ | _, Datetime64 _ => raise TypeError
  | Int64 xs, Int64 ys => ret (Int64 (zip_with (fun x y => wrap64 (x - y)) xs ys))
  | _, _ => ret (Float64 (zip_with F64.sub (as_floats a) (as_floats b)))
  end.

(** [np.abs]: on int64 the most negative value is its own absolute value. *)
Definition np_abs (c : column) : result column :=
  match c with
  | Int64 xs => ret (Int64 (map (fun x => wrap64 (Z.abs x)) xs))
  | Float64 xs => ret (Float64 (map F64.abs xs))
  | Datetime64 _ => raise TypeError
  end.

(** [a / b]: true division, always in floating point; a zero divisor
    gives an infinity, or NaN for [0 / 0], and no exception. *)
Definition series_truediv (a b : column) : result column :=
  match a, b with
  | Datetime64 _, _ | _, Datetime64 _ => raise TypeError
  | _, _ => ret (Float64 (zip_with F64.div (as_floats a) (as_floats b)))
  end.

(** [.replace(np.inf, 0)]: only the entries equal to [+inf] change. *)
Definition replace_inf_0 (c : column) : column :=
  match c with
  | Float64 xs =>
      Float64 (map (fun x => if F64.eqb x F64.inf then F64.zero else x) xs)
  | _ => c
  end.

(** Floating-point accumulation in row order, from [0.0]. *)
Definition fsum (xs : list float) : float := fold_left F64.add xs F64.zero.

Definition nan_to_zero (x : float) : float :=
  if F64.is_nan x then F64.zero else x.

Definition count_valid (xs : list float) : nat :=
  length (List.filter (fun x => negb (F64.is_nan x)) xs).

(** [.mean()] with pandas' default [skipna=True]: missing entries count
    as [0.0] in the sum and are left out of the count; the sum is taken
    in double precision, also for an integer column; the mean of no
    value is NaN.  (A datetime column is never averaged by the program.) *)
Definition series_mean (c : column) : result float :=
  match c with
  | Int64 xs =>
      ret (match xs with
           | [] => F64.nan
           | _ => F64.div (fsum (map F64.of_int xs)) (F64.of_int (Z.of_nat (length xs)))
           end)
  | Float64 xs =>
      ret (match count_valid xs with
           | O => F64.nan
           | n => F64.div (fsum (map nan_to_zero xs)) (F64.of_int (Z.of_nat n))
           end)
  | Datetime64 _ => raise TypeError
  end.

(** A NumPy scalar: the sum of an integer column is an int64. *)
Inductive scalar : Type :=
| IntS (z : Z)
| FloatS (x : float).

Definition scalar_float (s : scalar) : float :=
  match s with IntS z => F64.of_int z | FloatS x => x end.

(** Sum of int64 values; every addition wraps. *)
Definition sum_int64 (xs : list Z) : Z :=
  fold_left (fun acc x => wrap64 (acc + x)) xs 0.

(** [.sum()]: int64 addition wraps; NaN entries are skipped. *)
Definition series_sum (c : column) : result scalar :=
  match c with
  | Int64 xs => ret (IntS (sum_int64 xs))
  | Float64 xs => ret (FloatS (fsum (map nan_to_zero xs)))
  | Datetime64 _ => raise TypeError
  end.

(** Division of two NumPy scalars: a zero divisor is a warning, not an
    exception. *)
Definition scalar_truediv (a b : scalar) : float :=
  F64.div (scalar_float a) (scalar_float b).

(** ** [calculate_metrics] *)

Record Metrics : Type := {
  MAPE : float;
  WMAPE : float;
  BIAS : float;
  Forecast_Accuracy : float
}.

Definition hundred : float := F64.of_int 100.

(** The function assigns three columns to the frame it is given and
    returns the dictionary of metrics; the frame after the call is part
    of the result. *)
Definition calculate_metrics (df : DataFrame) : result (DataFrame * Metrics) :=
  forecast <- getitem df "Forecast" ;;
  actual <- getitem df "Actual" ;;
  error <- series_sub forecast actual ;;
  let df := setitem df "Error" error in
  error <- getitem df "Error" ;;
  absolute_error <- np_abs error ;;
  let df := setitem df "Absolute_Error" absolute_error in
  absolute_error <- getitem df "Absolute_Error" ;;
  actual <- getitem df "Actual" ;;
  ratio <- series_truediv absolute_error actual ;;
  let df := setitem df "Percentage_Error" (replace_inf_0 ratio) in
  percentage_error <- getitem df "Percentage_Error" ;;
  m <- series_mean percentage_error ;;
  let mape := F64.mul m hundred in
  absolute_error <- getitem df "Absolute_Error" ;;
  s_abs <- series_sum absolute_error ;;
  actual <- getitem df "Actual" ;;
  s_act <- series_sum actual ;;
  let wmape := F64.mul (scalar_truediv s_abs s_act) hundred in
  error <- getitem df "Error" ;;
  bias <- series_mean error ;;
  let accuracy := F64.sub hundred mape in
  ret (df, {| MAPE := mape; WMAPE := wmape; BIAS := bias;
              Forecast_Accuracy := accuracy |}).

(** A frame built from rows of integers [(actual, forecast)]. *)
Definition frame_of_rows (rows : list (Z * Z)) : DataFrame :=
  <["Forecast" := Int64 (map snd rows)]> (<["Actual" := Int64 (map fst rows)]> ∅).

Definition metrics_of (r : result (DataFrame * Metrics)) : option Metrics :=
  match r with inr (_, m) => Some m | inl _ => None end.

Definition frame_of (r : result (DataFrame * Metrics)) : option DataFrame :=
  match r with inr (df, _) => Some df | inl _ => None end.

(** ** The error histogram: [pd.cut(df['Error'], bins=5).value_counts()] *)

Definition float_ne (a b : float) : bool := negb (F64.eqb a b).

(** Smallest and largest value of a column as doubles, skipping NaN
    (NaN when there is none). *)
Definition fmin (a b : float) : float :=
  if F64.is_nan a then b else if F64.ltb b a then b else a.
Definition fmax (a b : float) : float :=
  if F64.is_nan a then b else if F64.ltb a b then b else a.

Definition nanmin (xs : list float) : float := fold_left fmin xs F64.nan.
Definition nanmax (xs : list float) : float := fold_left fmax xs F64.nan.

Definition milli : float := F64.div (F64.of_int 1) (F64.of_int 1000).  (* 0.001 *)

(** [np.linspace(start, stop, num = div + 1)], end point included. *)
Definition np_linspace (start stop : float) (div : nat) : list float :=
  let delta := F64.sub stop start in
  let d := F64.of_int (Z.of_nat div) in
  let step := F64.div delta d in
  let y (i : nat) : float :=
    let fi := F64.of_int (Z.of_nat i) in
    F64.add (if F64.eqb step F64.zero then F64.mul (F64.div fi d) delta
             else F64.mul fi step) start in
  map y (seq 0 div) ++ [stop].

(** The bin edges pandas derives from the data for an integer [bins]. *)
Definition nbins_to_bins (xs : list float) (nbins : nat) : result (list float) :=
  match nbins, xs with
  | O, _ => raise (ValueError "`bins` should be a positive integer.")
  | _, [] => raise (ValueError "Cannot cut empty array")
  | _, _ =>
      let mn := nanmin xs in
      let mx := nanmax xs in
      if F64.is_inf mn || F64.is_inf mx then
        raise (ValueError "cannot specify integer `bins` when input data contains infinity")
      else if F64.eqb mn mx then
        let mn' := F64.sub mn (if float_ne mn F64.zero then F64.mul milli (F64.abs mn) else milli) in
        let mx' := F64.add mx (if float_ne mx F64.zero then F64.mul milli (F64.abs mx) else milli) in
        ret (np_linspace mn' mx' nbins)
      else
        let bins := np_linspace mn mx nbins in
        let adj := F64.mul (F64.sub mx mn) milli in
        match bins with
        | b0 :: rest => ret (F64.sub b0 adj :: rest)
        | [] => ret []
        end
  end.

(** Equality of two edges as the duplicate check sees it. *)
Definition same_edge (a b : float) : bool :=
  F64.eqb a b || (F64.is_nan a && F64.is_nan b).

Fixpoint all_distinct (bins : list float) : bool :=
  match bins with
  | [] => true
  | b :: bs => negb (existsb (same_edge b) bs) && all_distinct bs
  end.

(** [bins.searchsorted(x, side='left')] on ascending edges: the index of
    the first edge that is not below [x]. *)
Fixpoint searchsorted_left (bins : list float) (x : float) : nat :=
  match bins with
  | [] => O
  | b :: bs => if F64.ltb b x then S (searchsorted_left bs x) else O
  end.

(** The bin of one value: [None] (NaN in pandas) for a missing value and
    for a value at or below the first edge or above the last one. *)
Definition bin_code (bins : list float) (x : float) : option nat :=
  let ids := searchsorted_left bins x in
  if F64.is_nan x || Nat.eqb ids (length bins) || Nat.eqb ids 0 then None
  else Some (Nat.pred ids).

(** A bin [(left, right]].  pandas prints the two bounds rounded to three
    significant decimals; the bin itself is cut at the unrounded edges
    kept here. *)
Record Interval : Type := { left : float; right : float }.

Definition intervals (bins : list float) : list Interval :=
  zip_with (fun a b => {| left := a; right := b |}) bins (tl bins).

(** [pd.cut(x, bins=nbins)]: the categories and the code of every row. *)
Definition pd_cut (x : column) (nbins : nat) : result (list Interval * list (option nat)) :=
  match x with
  | Datetime64 _ => raise TypeError
  | _ =>
      let xs := as_floats x in
      bins <- nbins_to_bins xs nbins ;;
      if negb (all_distinct bins) && negb (Nat.eqb (length bins) 2) then
        raise (ValueError "Bin edges must be unique")
      else ret (intervals bins, map (bin_code bins) xs)
  end.

Definition code_eqb (a b : option nat) : bool :=
  match a, b with
  | Some i, Some j => Nat.eqb i j
  | None, None => true
  | _, _ => false
  end.

Definition count_code (codes : list (option nat)) (i : nat) : nat :=
  length (List.filter (code_eqb (Some i)) codes).

(** Insertion into a list that is sorted by descending count, ahead of
    the first entry whose count is not larger. *)
Fixpoint insert_desc {A} (x : A * nat) (l : list (A * nat)) : list (A * nat) :=
  match l with
  | [] => [x]
  | y :: l' => if (snd y <=? snd x)%nat then x :: y :: l' else y :: insert_desc x l'
  end.

Definition sort_desc {A} (l : list (A * nat)) : list (A * nat) :=
  fold_right insert_desc [] l.

(** The categories in category order with their counts, before sorting. *)
Definition counts_table (cats : list Interval) (codes : list (option nat))
  : list (Interval * nat) :=
  imap (fun i iv => (iv, count_code codes i)) cats.

(** [.value_counts()] of a categorical series: one entry per category,
    empty ones included, missing codes dropped, most frequent first
    (categories of equal count stay in category order). *)
Definition value_counts (c : list Interval * list (option nat)) : list (Interval * nat) :=
  let '(cats, codes) := c in
  sort_desc (counts_table cats codes).

(** The histogram with [nbins] bins of the [Error] column of a frame. *)
Definition error_bins_of (nbins : nat) (df : DataFrame) : result (list (Interval * nat)) :=
  error <- getitem df "Error" ;;
  c <- pd_cut error nbins ;;
  ret (value_counts c).

Definition error_bins (df : DataFrame) : result (list (Interval * nat)) :=
  error_bins_of 5 df.

(** The histogram the analysis tab shows for a frame: the metrics are
    computed first, which is what gives the frame its [Error] column. *)
Definition histogram_of (nbins : nat) (df : DataFrame) : result (list (Interval * nat)) :=
  r <- calculate_metrics df ;;
  error_bins_of nbins (fst r).

Definition histogram (df : DataFrame) : result (list (Interval * nat)) :=
  r <- calculate_metrics df ;;
  error_bins (fst r).

Definition total_count {A} (h : list (A * nat)) : nat :=
  fold_right Nat.add O (map snd h).

(** Lower bounds strictly ascending along the list. *)
Fixpoint ascending_bounds (h : list (Interval * nat)) : bool :=
  match h with
  | p :: ((q :: _) as t) => F64.ltb (left (fst p)) (left (fst q)) && ascending_bounds t
  | _ => true
  end.

Definition count_ge (p q : Interval * nat) : Prop := (snd q <= snd p)%nat.

Definition has_bin (c : option nat) : bool :=
  match c with Some _ => true | None => false end.

(** ** [generate_data] and the analysis tab *)

Section Generator.

(** NumPy's global random generator: its state, [np.random.seed] and
    [np.random.normal(loc, scale, size)], which returns the draws and
    the state it leaves behind. *)
Variable rng : Type.
Variable seed : Z -> rng.
Variable normal : float -> float -> nat -> rng -> list float * rng.

Definition day_2023_01_01 : Z := 19358.

(** [pd.date_range(start='2023-01-01', periods=n)] *)
Definition date_range (n : nat) : list Z :=
  map (fun i => day_2023_01_01 + Z.of_nat i) (seq 0 n).

Definition generate_data (n : nat) (g : rng) : DataFrame * rng :=
  let g := seed 42 in
  let dates := date_range n in
  let novo_scale := F64.div (F64.of_int 500) (F64.of_int 3) in
  let '(draws, g) := normal (F64.of_int 500) novo_scale n g in
  let actual := map (fun x => float_to_int64 (F64.rint x)) draws in
  let '(noise, g) :=
    normal (F64.div (F64.of_int 9) (F64.of_int 10))
           (F64.div (F64.of_int 2) (F64.of_int 10)) n g in
  let forecast :=
    zip_with (fun a d => F64.add (F64.mul (F64.of_int a) d) (F64.of_int 100))
             actual noise in
  (<["Date" := Datetime64 dates]>
     (<["Actual" := Int64 actual]>
        (<["Forecast" := Int64 (map float_to_int64 forecast)]> ∅)), g).

(** The data part of the analysis tab: the three slider values, then
    the frame and its metrics. *)
Definition tab2 (n_records : nat) (base_actual noise_level : Z) (g : rng)
  : result (DataFrame * Metrics) * rng :=
  let '(df, g) := generate_data n_records g in
  (calculate_metrics df, g).

End Generator.

(** ** The columns and metrics of a numeric frame, in closed form *)

Definition num_sub (a b : column) : column :=
  match a, b with
  | Int64 xs, Int64 ys => Int64 (zip_with (fun x y => wrap64 (x - y)) xs ys)
  | _, _ => Float64 (zip_with F64.sub (as_floats a) (as_floats b))
  end.

Definition num_abs (c : column) : column :=
  match c with
  | Int64 xs => Int64 (map (fun x => wrap64 (Z.abs x)) xs)
  | _ => Float64 (map F64.abs (as_floats c))
  end.

Definition num_div (a b : column) : column :=
  Float64 (zip_with F64.div (as_floats a) (as_floats b)).

Definition num_mean (c : column) : float :=
  match series_mean c with inr m => m | inl _ => F64.nan end.

Definition num_sum (c : column) : scalar :=
  match series_sum c with inr s => s | inl _ => FloatS F64.nan end.

Definition errors_of (f a : column) : column := num_sub f a.
Definition abs_errors_of (f a : column) : column := num_abs (errors_of f a).
Definition pct_errors_of (f a : column) : column :=
  replace_inf_0 (num_div (abs_errors_of f a) a).

Definition metrics_num (f a : column) : Metrics :=
  let mape := F64.mul (num_mean (pct_errors_of f a)) hundred in
  {| MAPE := mape;
     WMAPE := F64.mul (scalar_truediv (num_sum (abs_errors_of f a)) (num_sum a)) hundred;
     BIAS := num_mean (errors_of f a);
     Forecast_Accuracy := F64.sub hundred mape |}.

Definition frame_num (df : DataFrame) (f a : column) : DataFrame :=
  <["Percentage_Error" := pct_errors_of f a]>
    (<["Absolute_Error" := abs_errors_of f a]>
       (<["Error" := errors_of f a]> df)).

Definition forecasts (rows : list (Z * Z)) : column := Int64 (map snd rows).
Definition actuals (rows : list (Z * Z)) : column := Int64 (map fst rows).

(** ** Datasets used in the scenarios *)

Definition all_nan : Metrics :=
  {| MAPE := F64.nan; WMAPE := F64.nan; BIAS := F64.nan;
     Forecast_Accuracy := F64.nan |}.

(** A frame whose second forecast is missing (pandas stores a missing
    number as NaN, in a float column). *)
Definition frame_missing_forecast : DataFrame :=
  <["Forecast" := Float64 [F64.of_int 110; F64.nan]]>
    (<["Actual" := Int64 [100; 200]]> ∅).


(** Exact integer sum, for comparison with the wrapping one. *)
Definition zsum (xs : list Z) : Z := fold_right Z.add 0 xs.

Definition abs_error_of_row (r : Z * Z) : Z :=
  wrap64 (Z.abs (wrap64 (snd r - fst r))).

(** A value that [pd.cut] assigns a bin: a number above the first edge
    and not above every edge. *)
Definition in_span (bins : list float) (x : float) : bool :=
  negb (F64.is_nan x)
  && match bins with b0 :: _ => F64.ltb b0 x | [] => false end
  && negb (forallb (fun b => F64.ltb b x) bins).

Definition rows_skewed : list (Z * Z) := [(0, 0); (0, 10); (0, 10)].

Definition lower_bounds (h : list (Interval * nat)) : list float :=
  map (fun p => left (fst p)) h.

Definition nat_sum (l : list nat) : nat := fold_right Nat.add O l.

Definition code_below (n : nat) (c : option nat) : bool :=
  match c with Some i => (i <? n)%nat | None => false end.

(** ** Rows and columns used in the further properties *)

Definition exact_error_of_row (r : Z * Z) : Z := snd r - fst r.

Definition error_of_row (r : Z * Z) : Z := wrap64 (snd r - fst r).

Definition float_values (c : column) : list float :=
  match c with Float64 xs => xs | _ => [] end.

(** A generator for the examples: every draw is the requested mean. *)
Definition constant_normal (loc scale : float) (n : nat) (g : unit) : list float * unit :=
  (repeat loc n, tt).

Definition scale_count (n : nat) (p : Interval * nat) : Interval * nat :=
  (fst p, (n * snd p)%nat).

Definition rows_of_seven : list (Z * Z) := [(0, 7); (0, 7); (0, 7)].

(** A row whose actual is zero and whose forecast is a non-zero int64
    other than the most negative one. *)
Definition zero_actual_row (r : Z * Z) : Prop :=
  fst r = 0 /\ snd r <> 0 /\ int64_min < snd r <= int64_max.

Definition rows_zero_actual : list (Z * Z) := [(0, 10); (0, -20)].

(** The percentage error of one integer row. *)
Definition pct_error_of_row (r : Z * Z) : float :=
  let q := F64.div (F64.of_int (abs_error_of_row r)) (F64.of_int (fst r)) in
  if F64.eqb q F64.inf then F64.zero else q.

(** ** Two-decimal formatting: [f"{value:.2f}"] *)

(** Decimal digits of a non-negative integer. *)
Definition decimal (n : Z) : string :=
  NilZero.string_of_uint (N.to_uint (Z.to_N n)).

(** [a / b] rounded to the nearest integer, ties to even ([b > 0]). *)
Definition rne_div (a b : Z) : Z :=
  let q := a / b in
  let r := a mod b in
  if 2 * r <? b then q
  else if b <? 2 * r then q + 1
  else if Z.even q then q else q + 1.

(** The sign of a number and its magnitude in hundredths, rounded
    correctly from the exact binary value, as Python's float formatting
    does; [None] for NaN and the infinities. *)
Definition hundredths (x : float) : option (bool * Z) :=
  match x with
  | S754_zero s => Some (s, 0)
  | S754_finite s m e =>
      Some (s, if 0 <=? e then 100 * Zpos m * 2 ^ e
               else rne_div (100 * Zpos m) (2 ^ (- e)))
  | _ => None
  end.

Definition format_2f (x : float) : string :=
  match hundredths x with
  | Some (s, n) =>
      (if s then "-" else "") +:+ decimal (n / 100) +:+ "."
        +:+ decimal (n mod 100 / 10) +:+ decimal (n mod 10)
  | None =>
      match x with
      | S754_infinity true => "-inf"
      | S754_infinity false => "inf"
      | _ => "nan"
      end
  end.

(** The text of one metric in the PDF report, [f"{key}: {value:.2f}%"],
    and on a dashboard card, [f"{value:.2f}%"]. *)
Definition report_line (key : string) (value : float) : string :=
  key +:+ ": " +:+ format_2f value +:+ "%".

Definition card_text (value : float) : string := format_2f value +:+ "%".

(** ** The download link: [base64.b64encode(pdf_output).decode()]

    Bytes are integers in [0, 256); the encoding is that of RFC 4648,
    which Python implements, and [b64decode] is its inverse as the
    browser applies it to the link. *)

Definition b64_alphabet : string :=
  "ABCDEFGHIJKLMNOPQRSTUVWXYZabcdefghijklmnopqrstuvwxyz0123456789+/".

Definition b64_char (i : Z) : ascii :=
  nth (Z.to_nat i) (list_ascii_of_string b64_alphabet) "A"%char.

Fixpoint b64encode (bs : list Z) : string :=
  match bs with
  | [] => EmptyString
  | [a] =>
      String (b64_char (a / 4)) (String (b64_char (a mod 4 * 16)) "==")
  | [a; b] =>
      String (b64_char (a / 4))
        (String (b64_char (a mod 4 * 16 + b / 16))
           (String (b64_char (b mod 16 * 4)) "="))
  | a :: b :: c :: rest =>
      String (b64_char (a / 4))
        (String (b64_char (a mod 4 * 16 + b / 16))
           (String (b64_char (b mod 16 * 4 + c / 64))
              (String (b64_char (c mod 64)) (b64encode rest))))
  end.

Fixpoint index_from (i : Z) (alphabet : list ascii) (c : ascii) : option Z :=
  match alphabet with
  | [] => None
  | a :: rest => if Ascii.eqb a c then Some i else index_from (i + 1) rest c
  end.

Definition b64_index (c : ascii) : option Z :=
  index_from 0 (list_ascii_of_string b64_alphabet) c.

Definition is_pad (c : ascii) : bool := Ascii.eqb c "="%char.

Fixpoint b64decode (s : string) : option (list Z) :=
  match s with
  | EmptyString => Some []
  | String c1 (String c2 (String c3 (String c4 rest))) =>
      match b64_index c1, b64_index c2 with
      | Some i1, Some i2 =>
          if is_pad c4 && String.eqb rest EmptyString then
            if is_pad c3 then Some [i1 * 4 + i2 / 16]
            else
              match b64_index c3 with
              | Some i3 => Some [i1 * 4 + i2 / 16; i2 mod 16 * 16 + i3 / 4]
              | None => None
              end
          else
            match b64_index c3, b64_index c4, b64decode rest with
            | Some i3, Some i4, Some tl =>
                Some (i1 * 4 + i2 / 16 :: i2 mod 16 * 16 + i3 / 4
                        :: i3 mod 4 * 64 + i4 :: tl)
            | _, _, _ => None
            end
      | _, _ => None
      end
  | _ => None
  end.

Definition is_byte (b : Z) : Prop := 0 <= b < 256.

(** The characters a base64 text is made of. *)
Definition b64_text_char (c : ascii) : bool :=
  is_pad c || match b64_index c with Some _ => true | None => false end.

(** Characters that would end or break the quoted [href] attribute the
    text is pasted into. *)
Definition markup_chars : list ascii :=
  [ascii_of_nat 34; "<"%char; ">"%char; " "%char; "&"%char; "'"%char].

(** * Properties *)

(** ** What [calculate_metrics] computes on numeric columns *)

Lemma num_sub_numeric a b :
  is_numeric a = true -> is_numeric b = true ->
  series_sub a b = inr (num_sub a b) /\ is_numeric (num_sub a b) = true.
Proof. destruct a, b; simpl; intros; try discriminate; auto. Qed.

Lemma num_abs_numeric c :
  is_numeric c = true ->
  np_abs c = inr (num_abs c) /\ is_numeric (num_abs c) = true.
Proof. destruct c; simpl; intros; try discriminate; auto. Qed.

Lemma num_div_numeric a b :
  is_numeric a = true -> is_numeric b = true ->
  series_truediv a b = inr (num_div a b).
Proof. destruct a, b; simpl; intros; try discriminate; auto. Qed.

Lemma num_mean_numeric c :
  is_numeric c = true -> series_mean c = inr (num_mean c).
Proof. destruct c; simpl; intros; try discriminate; auto. Qed.

Lemma num_sum_numeric c :
  is_numeric c = true -> series_sum c = inr (num_sum c).
Proof. destruct c; simpl; intros; try discriminate; auto. Qed.

Lemma calculate_metrics_numeric (df : DataFrame) f a :
  df !! "Forecast" = Some f -> df !! "Actual" = Some a ->
  is_numeric f = true -> is_numeric a = true ->
  calculate_metrics df = inr (frame_num df f a, metrics_num f a).
Proof.
  intros Hf Ha Nf Na.
  destruct (num_sub_numeric f a Nf Na) as [Es Ns].
  destruct (num_abs_numeric _ Ns) as [Ea Nab].
  pose proof (num_div_numeric _ _ Nab Na) as Ed.
  unfold calculate_metrics, getitem, setitem.
  rewrite Hf, Ha. cbn [bind ret]. rewrite Es. cbn [bind ret].
  rewrite lookup_insert_eq. cbn [bind ret]. rewrite Ea. cbn [bind ret].
  rewrite lookup_insert_eq. cbn [bind ret].
  rewrite !lookup_insert_ne by done. rewrite Ha. cbn [bind ret].
  rewrite Ed. cbn [bind ret].
  rewrite lookup_insert_eq. cbn [bind ret].
  rewrite (num_mean_numeric (replace_inf_0 (num_div (num_abs (num_sub f a)) a)))
    by reflexivity.
  cbn [bind ret].
  rewrite (lookup_insert_ne _ "Percentage_Error" "Absolute_Error") by done.
  rewrite lookup_insert_eq. cbn [bind ret].
  rewrite (num_sum_numeric _ Nab). cbn [bind ret].
  rewrite !lookup_insert_ne by done. rewrite Ha. cbn [bind ret].
  rewrite (num_sum_numeric _ Na). cbn [bind ret].
  rewrite ?lookup_insert_ne by done.
  rewrite lookup_insert_eq. cbn [bind ret].
  rewrite (num_mean_numeric _ Ns). cbn [bind ret].
  reflexivity.
Qed.

Lemma calculate_metrics_outcome (df : DataFrame) :
  calculate_metrics df =
  match df !! "Forecast", df !! "Actual" with
  | None, _ => inl (KeyError "Forecast")
  | Some _, None => inl (KeyError "Actual")
  | Some f, Some a =>
      if is_numeric f && is_numeric a
      then inr (frame_num df f a, metrics_num f a)
      else inl TypeError
  end.
Proof.
  destruct (df !! "Forecast") as [f|] eqn:Hf; [|unfold calculate_metrics, getitem; now rewrite Hf].
  destruct (df !! "Actual") as [a|] eqn:Ha; [|unfold calculate_metrics, getitem; now rewrite Hf, Ha].
  destruct (is_numeric f) eqn:Nf, (is_numeric a) eqn:Na; cbn [andb].
  - now apply calculate_metrics_numeric.
  - unfold calculate_metrics, getitem. rewrite Hf, Ha. cbn [bind ret].
    destruct f, a; try discriminate; reflexivity.
  - unfold calculate_metrics, getitem. rewrite Hf, Ha. cbn [bind ret].
    destruct f, a; try discriminate; reflexivity.
  - unfold calculate_metrics, getitem. rewrite Hf, Ha. cbn [bind ret].
    destruct f, a; try discriminate; reflexivity.
Qed.

Lemma frame_of_rows_forecast rows :
  frame_of_rows rows !! "Forecast" = Some (Int64 (map snd rows)).
Proof. unfold frame_of_rows. apply lookup_insert_eq. Qed.

Lemma frame_of_rows_actual rows :
  frame_of_rows rows !! "Actual" = Some (Int64 (map fst rows)).
Proof.
  unfold frame_of_rows. rewrite lookup_insert_ne by done. apply lookup_insert_eq.
Qed.

Lemma calculate_metrics_rows rows :
  calculate_metrics (frame_of_rows rows) =
  inr (frame_num (frame_of_rows rows) (forecasts rows) (actuals rows),
       metrics_num (forecasts rows) (actuals rows)).
Proof.
  apply calculate_metrics_numeric; auto using frame_of_rows_forecast, frame_of_rows_actual.
Qed.

(** ** Concrete scenario *)

(** C3: for the rows (actual=100, forecast=110), (actual=200, forecast=180)
    the errors are [10, -20], BIAS is -5, MAPE and WMAPE are 10.0 and
    Forecast_Accuracy is 90.0. *)
Theorem scenario_two_rows :
  exists df',
    calculate_metrics (frame_of_rows [(100, 110); (200, 180)]) =
      inr (df', {| MAPE := F64.of_int 10; WMAPE := F64.of_int 10;
                   BIAS := F64.of_int (-5);
                   Forecast_Accuracy := F64.of_int 90 |})
    /\ df' !! "Error" = Some (Int64 [10; -20]).
Proof.
  rewrite calculate_metrics_rows. eexists. split.
  - apply f_equal, f_equal. vm_compute. reflexivity.
  - unfold frame_num. rewrite !lookup_insert_ne by done.
    rewrite lookup_insert_eq. reflexivity.
Qed.

(** ** Failures: there is no validation and no division error *)

(** C4, as stated, fails: a row with a missing forecast raises nothing,
    and metrics come out of the remaining row. *)
Lemma missing_value_not_rejected :
  exists df' m,
    calculate_metrics frame_missing_forecast = inr (df', m)
    /\ MAPE m = F64.of_int 10 /\ BIAS m = F64.of_int 10
    /\ df' !! "Error" = Some (Float64 [F64.of_int 10; F64.nan]).
Proof.
  rewrite (calculate_metrics_numeric frame_missing_forecast
             (Float64 [F64.of_int 110; F64.nan]) (Int64 [100; 200]));
    try reflexivity.
  do 2 eexists. split; [reflexivity|].
  split; [vm_compute; reflexivity|]. split; [vm_compute; reflexivity|].
  unfold frame_num. rewrite !lookup_insert_ne by done.
  rewrite lookup_insert_eq. vm_compute. reflexivity.
Qed.

(** C4, amended: [calculate_metrics] never looks at the values of a row.
    It fails exactly when a column is absent ([KeyError] naming the
    column) or is not numeric ([TypeError]); on numeric columns, whatever
    they hold, it returns the augmented frame and the metrics. *)
Theorem failures_are_about_columns (df : DataFrame) :
  match df !! "Forecast", df !! "Actual" with
  | None, _ => calculate_metrics df = inl (KeyError "Forecast")
  | Some _, None => calculate_metrics df = inl (KeyError "Actual")
  | Some f, Some a =>
      if is_numeric f && is_numeric a
      then exists r, calculate_metrics df = inr r
      else calculate_metrics df = inl TypeError
  end.
Proof.
  rewrite calculate_metrics_outcome.
  destruct (df !! "Forecast"), (df !! "Actual"); try reflexivity.
  destruct (is_numeric _ && is_numeric _); eauto.
Qed.

(** C1, as stated, fails: the empty dataset and a dataset whose actual
    values are all zero both return a summary, of NaN in the first case
    and with MAPE = 0 and WMAPE = +infinity in the second. *)
Lemma undefined_metrics_are_returned :
  metrics_of (calculate_metrics (frame_of_rows [])) = Some all_nan
  /\ metrics_of (calculate_metrics (frame_of_rows [(0, 10); (0, 20)])) =
       Some {| MAPE := F64.zero; WMAPE := F64.inf; BIAS := F64.of_int 15;
               Forecast_Accuracy := F64.of_int 100 |}.
Proof. rewrite !calculate_metrics_rows. split; vm_compute; reflexivity. Qed.

Lemma div_by_zero_not_finite x :
  F64.is_finite (F64.mul (F64.div x (F64.of_int 0)) hundred) = false.
Proof. destruct x as [s|s| |s m e]; reflexivity. Qed.

(** C1, amended: on integer rows [calculate_metrics] never fails.  When
    the dataset is empty or its actual values sum to zero it returns a
    summary whose WMAPE is not a finite number (an infinity or NaN), and
    for the empty dataset all four metrics are NaN. *)
Theorem undefined_metrics_not_reported (rows : list (Z * Z)) :
  rows = [] \/ sum_int64 (map fst rows) = 0 ->
  exists df' m,
    calculate_metrics (frame_of_rows rows) = inr (df', m)
    /\ F64.is_finite (WMAPE m) = false
    /\ (rows = [] -> m = all_nan).
Proof.
  intros H. rewrite calculate_metrics_rows. do 2 eexists.
  split; [reflexivity|]. split.
  - assert (Hs : sum_int64 (map fst rows) = 0)
      by (destruct H as [-> | H]; [reflexivity | exact H]).
    unfold metrics_num, WMAPE, scalar_truediv, actuals, num_sum, series_sum.
    cbn [ret scalar_float]. rewrite Hs. apply div_by_zero_not_finite.
  - intros ->. vm_compute. reflexivity.
Qed.

Lemma undefined_metrics_not_reported_witness :
  exists df' m,
    calculate_metrics (frame_of_rows [(0, 10); (0, 20)]) = inr (df', m)
    /\ F64.is_finite (WMAPE m) = false
    /\ ([(0, 10); (0, 20)] = [] -> m = all_nan).
Proof.
  apply (undefined_metrics_not_reported [(0, 10); (0, 20)]).
  right. reflexivity.
Defined.

(** ** Zero over zero *)

(** C2 at the row (actual=0, forecast=0): the quotient 0/0 is NaN, which
    [replace(np.inf, 0)] leaves alone, so the percentage error is NaN and
    not 0; the mean then skips the row instead of counting a zero, which
    gives MAPE = 10 for the rows (0, 0), (100, 110) where a zero would
    give 5.  A zero actual with a non-zero forecast does give 0. *)
Theorem zero_over_zero_is_nan :
  (exists df' m,
     calculate_metrics (frame_of_rows [(0, 0)]) = inr (df', m)
     /\ df' !! "Percentage_Error" = Some (Float64 [F64.nan]))
  /\ (exists df' m,
        calculate_metrics (frame_of_rows [(0, 5)]) = inr (df', m)
        /\ df' !! "Percentage_Error" = Some (Float64 [F64.zero]))
  /\ (exists df' m,
        calculate_metrics (frame_of_rows [(0, 0); (100, 110)]) = inr (df', m)
        /\ MAPE m = F64.of_int 10).
Proof.
  rewrite !calculate_metrics_rows. repeat split; do 2 eexists;
    (split; [reflexivity|]);
    try (unfold frame_num; rewrite lookup_insert_eq); vm_compute; reflexivity.
Qed.

(** ** The frame after the call *)

(** C6, as stated, fails: the caller's frame comes back with an [Error]
    column it did not have. *)
Lemma caller_frame_is_changed :
  frame_of_rows [(100, 110)] !! "Error" = None
  /\ exists df' m,
       calculate_metrics (frame_of_rows [(100, 110)]) = inr (df', m)
       /\ df' !! "Error" = Some (Int64 [10])
       /\ df' <> frame_of_rows [(100, 110)].
Proof.
  assert (Hn : frame_of_rows [(100, 110)] !! "Error" = None).
  { unfold frame_of_rows. rewrite !lookup_insert_ne by done. apply lookup_empty. }
  split; [exact Hn|].
  rewrite calculate_metrics_rows. do 2 eexists. split; [reflexivity|].
  assert (He : frame_num (frame_of_rows [(100, 110)]) (forecasts [(100, 110)])
                 (actuals [(100, 110)]) !! "Error" = Some (Int64 [10])).
  { unfold frame_num. rewrite !lookup_insert_ne by done.
    rewrite lookup_insert_eq. reflexivity. }
  split; [exact He|]. intros E. rewrite E in He. congruence.
Qed.

(** C6, amended: a successful call assigns the three derived columns to
    the caller's frame and leaves every other column, the input columns
    included, as it was. *)
Theorem only_derived_columns_change (df df' : DataFrame) (m : Metrics) :
  calculate_metrics df = inr (df', m) ->
  (forall k, k <> "Error" -> k <> "Absolute_Error" -> k <> "Percentage_Error" ->
             df' !! k = df !! k)
  /\ is_Some (df' !! "Error")
  /\ is_Some (df' !! "Absolute_Error")
  /\ is_Some (df' !! "Percentage_Error").
Proof.
  rewrite calculate_metrics_outcome.
  destruct (df !! "Forecast") as [f|]; [|discriminate].
  destruct (df !! "Actual") as [a|]; [|discriminate].
  destruct (is_numeric f && is_numeric a); [|discriminate].
  intros [= <- <-]. unfold frame_num. repeat split.
  - intros k H1 H2 H3. now rewrite !lookup_insert_ne by done.
  - rewrite !lookup_insert_ne by done. rewrite lookup_insert_eq. eauto.
  - rewrite lookup_insert_ne by done. rewrite lookup_insert_eq. eauto.
  - rewrite lookup_insert_eq. eauto.
Qed.

Lemma only_derived_columns_change_witness :
  exists df' m,
    calculate_metrics (frame_of_rows [(100, 110)]) = inr (df', m)
    /\ df' !! "Actual" = frame_of_rows [(100, 110)] !! "Actual"
    /\ is_Some (df' !! "Error").
Proof.
  pose proof (calculate_metrics_rows [(100, 110)]) as E.
  do 2 eexists. split; [exact E|].
  destruct (only_derived_columns_change _ _ _ E) as (Hk & He & _).
  split; [apply Hk; discriminate | exact He].
Defined.

(** ** The generator *)

(** C10: [generate_data] re-seeds the generator with 42, so its result
    (and the state it leaves) does not depend on the state it finds; and
    the two sliders that are never passed on change neither the frame
    nor the metrics of the analysis tab. *)
Theorem generator_ignores_state_and_sliders
    (rng : Type) (seed : Z -> rng)
    (normal : float -> float -> nat -> rng -> list float * rng)
    (n : nat) (g1 g2 : rng) (base1 base2 noise1 noise2 : Z) :
  generate_data rng seed normal n g1 = generate_data rng seed normal n g2
  /\ tab2 rng seed normal n base1 noise1 g1 = tab2 rng seed normal n base2 noise2 g2.
Proof. split; reflexivity. Qed.

(** ** Order of the rows *)

Lemma wrap64_add_l a b : wrap64 (wrap64 a + b) = wrap64 (a + b).
Proof.
  unfold wrap64. f_equal.
  replace ((a + 2 ^ 63) mod 2 ^ 64 - 2 ^ 63 + b + 2 ^ 63)
    with ((a + 2 ^ 63) mod 2 ^ 64 + b) by ring.
  rewrite Zplus_mod_idemp_l. f_equal. ring.
Qed.

Lemma sum_int64_from xs a :
  fold_left (fun acc x => wrap64 (acc + x)) xs (wrap64 a) = wrap64 (a + zsum xs).
Proof.
  revert a. induction xs as [|x xs IH]; intros a; simpl.
  - now rewrite Z.add_0_r.
  - rewrite wrap64_add_l, IH. f_equal. ring.
Qed.

Lemma sum_int64_zsum xs : sum_int64 xs = wrap64 (zsum xs).
Proof. apply (sum_int64_from xs 0). Qed.



Lemma zip_with_rows {A} (f : Z -> Z -> A) (rows : list (Z * Z)) :
  zip_with f (map snd rows) (map fst rows) = map (fun r => f (snd r) (fst r)) rows.
Proof. induction rows as [|r rows IH]; simpl; congruence. Qed.

Lemma abs_errors_of_rows rows :
  abs_errors_of (forecasts rows) (actuals rows) = Int64 (map abs_error_of_row rows).
Proof.
  unfold abs_errors_of, errors_of, forecasts, actuals, num_sub, num_abs.
  rewrite zip_with_rows, map_map. reflexivity.
Qed.

Lemma wmape_of_rows rows :
  WMAPE (metrics_num (forecasts rows) (actuals rows)) =
  F64.mul (F64.div (F64.of_int (sum_int64 (map abs_error_of_row rows)))
                   (F64.of_int (sum_int64 (map fst rows)))) hundred.
Proof.
  unfold metrics_num, WMAPE. rewrite abs_errors_of_rows. reflexivity.
Qed.




(** ** Sorting by count *)

Lemma insert_desc_perm {A} (x : A * nat) l : Permutation (insert_desc x l) (x :: l).
Proof.
  induction l as [|y l IH]; simpl; [reflexivity|].
  destruct (snd y <=? snd x)%nat; [reflexivity|].
  rewrite IH. apply perm_swap.
Qed.

Lemma sort_desc_perm {A} (l : list (A * nat)) : Permutation (sort_desc l) l.
Proof.
  induction l as [|x l IH]; simpl; [reflexivity|].
  rewrite insert_desc_perm. now apply perm_skip.
Qed.

Lemma insert_desc_sorted (x : Interval * nat) l :
  Sorted count_ge l -> Sorted count_ge (insert_desc x l).
Proof.
  induction 1 as [|y l Hs IH Hd]; simpl.
  - repeat constructor.
  - destruct (snd y <=? snd x)%nat eqn:E.
    + apply Nat.leb_le in E. repeat constructor; assumption.
    + apply Nat.leb_gt in E. constructor; [exact IH|].
      destruct l as [|z l]; simpl.
      * constructor. unfold count_ge. lia.
      * destruct (snd z <=? snd x)%nat.
        -- constructor. unfold count_ge. lia.
        -- constructor. now inversion Hd.
Qed.

Lemma sort_desc_sorted (l : list (Interval * nat)) : Sorted count_ge (sort_desc l).
Proof.
  induction l as [|x l IH]; simpl; [constructor|]. now apply insert_desc_sorted.
Qed.

Lemma total_count_perm {A} (l l' : list (A * nat)) :
  Permutation l l' -> total_count l = total_count l'.
Proof. unfold total_count. induction 1; simpl; lia. Qed.

(** ** Counting the codes *)

Lemma counts_table_snd cats codes :
  map snd (counts_table cats codes) =
  map (count_code codes) (seq 0 (length cats)).
Proof.
  unfold counts_table.
  enough (G : forall (g : nat -> nat) k,
             map snd (imap (fun i iv => (iv, g (k + i)%nat)) cats) =
             map g (seq k (length cats))).
  { apply (G (count_code codes) O). }
  induction cats as [|c cats IH]; intros g k; [reflexivity|].
  cbn [imap map length seq snd]. rewrite Nat.add_0_r. f_equal.
  rewrite <- (IH g (S k)). f_equal. apply imap_ext. intros i x _. simpl.
  do 2 f_equal. lia.
Qed.

Lemma counts_table_fst cats codes : map fst (counts_table cats codes) = cats.
Proof.
  unfold counts_table.
  enough (G : forall (g : nat -> nat),
             map fst (imap (fun i iv => (iv, g i)) cats) = cats) by apply G.
  induction cats as [|c cats IH]; intros g; [reflexivity|].
  cbn [imap map fst]. f_equal. apply (IH (fun i => g (S i))).
Qed.

Lemma indicator_sum j a n :
  nat_sum (map (fun i => if Nat.eqb j i then 1%nat else O) (seq a n)) =
  if ((a <=? j) && (j <? a + n))%nat then 1%nat else O.
Proof.
  revert a. induction n as [|n IH]; intros a; simpl.
  - destruct (a <=? j)%nat eqn:E1, (j <? a + 0)%nat eqn:E2; simpl; try reflexivity.
    apply Nat.leb_le in E1. apply Nat.ltb_lt in E2. lia.
  - rewrite IH.
    destruct (Nat.eqb j a) eqn:E; [apply Nat.eqb_eq in E | apply Nat.eqb_neq in E];
      destruct (S a <=? j)%nat eqn:E1, (j <? S a + n)%nat eqn:E2,
               (a <=? j)%nat eqn:E3, (j <? a + S n)%nat eqn:E4; simpl; try reflexivity;
      repeat match goal with
             | H : (_ <=? _)%nat = true |- _ => apply Nat.leb_le in H
             | H : (_ <=? _)%nat = false |- _ => apply Nat.leb_gt in H
             | H : (_ <? _)%nat = true |- _ => apply Nat.ltb_lt in H
             | H : (_ <? _)%nat = false |- _ => apply Nat.ltb_ge in H
             end; lia.
Qed.

Lemma nat_sum_add (f g : nat -> nat) l :
  nat_sum (map (fun i => (f i + g i)%nat) l) = (nat_sum (map f l) + nat_sum (map g l))%nat.
Proof. induction l as [|x l IH]; simpl; [reflexivity|]. rewrite IH. lia. Qed.

Lemma nat_sum_zero {A} (l : list A) : nat_sum (map (fun _ => O) l) = O.
Proof. induction l; simpl; auto. Qed.

Lemma count_codes_total codes n :
  nat_sum (map (count_code codes) (seq 0 n)) = length (List.filter (code_below n) codes).
Proof.
  induction codes as [|c codes IH].
  - simpl. induction (seq 0 n); simpl; auto.
  - transitivity (nat_sum (map (fun i => ((if code_eqb (Some i) c then 1 else 0)
                                            + count_code codes i)%nat) (seq 0 n))).
    { f_equal. apply map_ext. intros i. unfold count_code. cbn [List.filter].
      destruct (code_eqb (Some i) c); reflexivity. }
    rewrite nat_sum_add, IH. cbn [List.filter].
    destruct c as [j|]; cbn [code_below code_eqb].
    + rewrite (map_ext _ (fun i => if Nat.eqb j i then 1%nat else O)).
      * rewrite indicator_sum. simpl. destruct (j <? n)%nat; reflexivity.
      * intros i. rewrite Nat.eqb_sym. reflexivity.
    + now rewrite nat_sum_zero.
Qed.

Lemma total_count_table cats codes :
  total_count (counts_table cats codes) =
  length (List.filter (code_below (length cats)) codes).
Proof.
  unfold total_count. rewrite counts_table_snd. apply count_codes_total.
Qed.

(** ** The bins of [pd.cut] *)

Lemma searchsorted_left_le bins x : (searchsorted_left bins x <= length bins)%nat.
Proof.
  induction bins as [|b bins IH]; simpl; [lia|].
  destruct (F64.ltb b x); simpl; lia.
Qed.

Lemma searchsorted_left_full bins x :
  Nat.eqb (searchsorted_left bins x) (length bins) = forallb (fun b => F64.ltb b x) bins.
Proof.
  induction bins as [|b bins IH]; simpl; [reflexivity|].
  destruct (F64.ltb b x); simpl; [exact IH | reflexivity].
Qed.

Lemma length_intervals bins : length (intervals bins) = Nat.pred (length bins).
Proof.
  unfold intervals. rewrite length_zip_with.
  destruct bins; [reflexivity|]. cbn [tl length Nat.pred]. lia.
Qed.

Lemma bin_code_in_span bins x : has_bin (bin_code bins x) = in_span bins x.
Proof.
  unfold bin_code, in_span. rewrite searchsorted_left_full.
  destruct (F64.is_nan x); simpl; [reflexivity|].
  destruct bins as [|b0 bins]; simpl; [reflexivity|].
  destruct (F64.ltb b0 x); simpl; [|reflexivity].
  destruct (forallb _ bins); reflexivity.
Qed.

Lemma bin_code_below bins x :
  code_below (length (intervals bins)) (bin_code bins x) = has_bin (bin_code bins x).
Proof.
  unfold bin_code.
  destruct (F64.is_nan x || _ || _) eqn:E; [reflexivity|].
  apply orb_false_iff in E as [E E0]. apply orb_false_iff in E as [_ E1].
  apply Nat.eqb_neq in E0, E1. pose proof (searchsorted_left_le bins x).
  simpl. rewrite length_intervals. apply Nat.ltb_lt. lia.
Qed.

Lemma filter_map_ext {A B} (f g : B -> bool) (h : A -> B) l :
  (forall x, f (h x) = g (h x)) -> List.filter f (map h l) = List.filter g (map h l).
Proof.
  intros H. induction l as [|x l IH]; simpl; [reflexivity|].
  rewrite H, IH. reflexivity.
Qed.

Lemma length_filter_map {A B} (f : B -> bool) (h : A -> B) l :
  length (List.filter f (map h l)) = length (List.filter (fun x => f (h x)) l).
Proof.
  induction l as [|x l IH]; simpl; [reflexivity|].
  destruct (f (h x)); simpl; congruence.
Qed.


Lemma length_np_linspace a b n : length (np_linspace a b n) = S n.
Proof.
  unfold np_linspace. rewrite length_app, length_map, length_seq. simpl. lia.
Qed.

Lemma length_nbins_to_bins xs n bins :
  nbins_to_bins xs n = inr bins -> length bins = S n.
Proof.
  unfold nbins_to_bins. destruct n as [|n]; [discriminate|].
  destruct xs as [|x xs]; [discriminate|].
  destruct (F64.is_inf _ || F64.is_inf _); [discriminate|].
  destruct (F64.eqb _ _).
  - intros [= <-]. apply length_np_linspace.
  - pose proof (length_np_linspace (nanmin (x :: xs)) (nanmax (x :: xs)) (S n)) as L.
    destruct (np_linspace _ _ _) as [|b0 rest]; [discriminate L|].
    intros [= <-]. exact L.
Qed.

Lemma length_as_floats c : is_numeric c = true -> length (as_floats c) = col_len c.
Proof. destruct c; simpl; intros; try discriminate; auto using length_map. Qed.

(** What [pd.cut] returns when it returns. *)
Lemma pd_cut_inr x n cats codes :
  pd_cut x n = inr (cats, codes) ->
  is_numeric x = true
  /\ exists bins,
       nbins_to_bins (as_floats x) n = inr bins
       /\ cats = intervals bins
       /\ codes = map (bin_code bins) (as_floats x).
Proof.
  unfold pd_cut. intros H.
  assert (N : is_numeric x = true) by (destruct x; [reflexivity..|discriminate]).
  split; [exact N|].
  assert (H' : (bins <- nbins_to_bins (as_floats x) n ;;
                if negb (all_distinct bins) && negb (Nat.eqb (length bins) 2)
                then raise (ValueError "Bin edges must be unique")
                else ret (intervals bins, map (bin_code bins) (as_floats x)))
               = inr (cats, codes))
    by (destruct x; [exact H..|discriminate]).
  destruct (nbins_to_bins (as_floats x) n) as [e|bins]; [discriminate|].
  cbn [bind] in H'. exists bins. split; [reflexivity|].
  destruct (negb _ && negb _); [discriminate|].
  now injection H' as <- <-.
Qed.

Lemma histogram_of_inr nbins (df : DataFrame) h :
  histogram_of nbins df = inr h ->
  exists f a bins,
    calculate_metrics df = inr (frame_num df f a, metrics_num f a)
    /\ is_numeric (errors_of f a) = true
    /\ frame_num df f a !! "Error" = Some (errors_of f a)
    /\ nbins_to_bins (as_floats (errors_of f a)) nbins = inr bins
    /\ h = sort_desc (counts_table (intervals bins)
                        (map (bin_code bins) (as_floats (errors_of f a)))).
Proof.
  unfold histogram_of. rewrite calculate_metrics_outcome.
  destruct (df !! "Forecast") as [f|]; [|discriminate].
  destruct (df !! "Actual") as [a|]; [|discriminate].
  destruct (is_numeric f && is_numeric a); [|discriminate].
  cbn [bind fst]. unfold error_bins_of, getitem.
  assert (He : frame_num df f a !! "Error" = Some (errors_of f a)).
  { unfold frame_num. rewrite !lookup_insert_ne by done. apply lookup_insert_eq. }
  rewrite He. cbn [bind ret].
  destruct (pd_cut (errors_of f a) nbins) as [e|[cats codes]] eqn:Hc; [discriminate|].
  apply pd_cut_inr in Hc as (N & bins & Hb & -> & ->).
  cbn [bind ret value_counts]. intros [= <-].
  exists f, a, bins. auto.
Qed.

Lemma histogram_is_histogram_of (df : DataFrame) : histogram df = histogram_of 5 df.
Proof. reflexivity. Qed.

(** ** Order of the bins *)

(** C5, as stated, fails: with one error of 0 and two of 10 the bin
    (8, 10], which holds two rows, comes first and the bin (-0.01, 2]
    second: the lower bounds are not ascending. *)
Lemma bins_not_in_ascending_order :
  exists h,
    histogram (frame_of_rows rows_skewed) = inr h
    /\ map snd h = [2; 1; 0; 0; 0]%nat
    /\ firstn 2 (lower_bounds h) =
         [F64.of_int 8; S754_finite true 5764607523034235 (-59)]
    /\ ascending_bounds h = false.
Proof. eexists. split; [vm_compute; reflexivity|]. repeat split. Qed.

(** C5, amended: the bins come out most frequent first, that is with
    non-increasing counts; they are the five intervals between the six
    edges, in some order. *)
Theorem bins_ordered_by_count (df : DataFrame) (h : list (Interval * nat)) :
  histogram df = inr h ->
  Sorted count_ge h
  /\ length h = 5%nat
  /\ exists bins, length bins = 6%nat /\ Permutation (map fst h) (intervals bins).
Proof.
  rewrite histogram_is_histogram_of. intros H.
  apply histogram_of_inr in H as (f & a & bins & _ & _ & _ & Hb & ->).
  apply length_nbins_to_bins in Hb.
  assert (P := sort_desc_perm (counts_table (intervals bins)
                 (map (bin_code bins) (as_floats (errors_of f a))))).
  split; [apply sort_desc_sorted|]. split.
  - rewrite (Permutation_length P).
    rewrite <- (length_map fst), counts_table_fst, length_intervals, Hb. reflexivity.
  - exists bins. split; [exact Hb|].
    rewrite (Permutation_map fst P), counts_table_fst. reflexivity.
Qed.

Lemma bins_ordered_by_count_witness :
  exists h,
    histogram (frame_of_rows rows_skewed) = inr h
    /\ Sorted count_ge h
    /\ length h = 5%nat.
Proof.
  eexists. split; [vm_compute; reflexivity|].
  refine (let H := bins_ordered_by_count (frame_of_rows rows_skewed) _ _ in
          conj (proj1 H) (proj1 (proj2 H))).
  vm_compute. reflexivity.
Defined.

(** ** Sum of the counts *)




(** * Further properties of the code *)

(** ** The derived columns *)

Lemma wrap64_id z : in_int64 z -> wrap64 z = z.
Proof.
  unfold in_int64, int64_min, int64_max, wrap64. intros H.
  rewrite Z.mod_small by lia. lia.
Qed.

Lemma wrap64_range z : in_int64 (wrap64 z).
Proof.
  unfold in_int64, int64_min, int64_max, wrap64.
  pose proof (Z.mod_pos_bound (z + 2 ^ 63) (2 ^ 64) ltac:(lia)). lia.
Qed.

Lemma frame_num_error (df : DataFrame) f a :
  frame_num df f a !! "Error" = Some (errors_of f a).
Proof. unfold frame_num. rewrite !lookup_insert_ne by done. apply lookup_insert_eq. Qed.

Lemma frame_num_abs (df : DataFrame) f a :
  frame_num df f a !! "Absolute_Error" = Some (abs_errors_of f a).
Proof. unfold frame_num. rewrite lookup_insert_ne by done. apply lookup_insert_eq. Qed.

Lemma frame_num_pct (df : DataFrame) f a :
  frame_num df f a !! "Percentage_Error" = Some (pct_errors_of f a).
Proof. unfold frame_num. apply lookup_insert_eq. Qed.

Lemma errors_of_rows rows :
  errors_of (forecasts rows) (actuals rows) = Int64 (map error_of_row rows).
Proof. unfold errors_of, forecasts, actuals, num_sub. now rewrite zip_with_rows. Qed.

(** X1: when the difference forecast - actual of every row fits in 64
    bits, the [Error] column holds exactly these differences. *)
Theorem error_is_the_difference (rows : list (Z * Z)) :
  Forall (fun r => in_int64 (snd r - fst r)) rows ->
  exists df' m,
    calculate_metrics (frame_of_rows rows) = inr (df', m)
    /\ df' !! "Error" = Some (Int64 (map exact_error_of_row rows)).
Proof.
  intros H. rewrite calculate_metrics_rows. do 2 eexists. split; [reflexivity|].
  rewrite frame_num_error, errors_of_rows. do 2 f_equal.
  induction H as [|r rows Hr _ IH]; [reflexivity|].
  cbn [map]. rewrite IH. f_equal. now apply wrap64_id.
Qed.

Lemma error_is_the_difference_witness :
  Forall (fun r => in_int64 (snd r - fst r)) [(100, 110); (200, 180)]
  /\ exists df' m,
       calculate_metrics (frame_of_rows [(100, 110); (200, 180)]) = inr (df', m)
       /\ df' !! "Error" =
            Some (Int64 (map exact_error_of_row [(100, 110); (200, 180)])).
Proof.
  assert (H : Forall (fun r => in_int64 (snd r - fst r)) [(100, 110); (200, 180)]).
  { repeat constructor; simpl; unfold int64_min, int64_max; lia. }
  split; [exact H|]. exact (error_is_the_difference _ H).
Defined.

(** X2: [Absolute_Error] is the absolute value of [Error], and it is not
    negative, for every row whose error is not the most negative int64;
    for that one value [np.abs] returns the value itself. *)
Theorem absolute_error_not_negative (rows : list (Z * Z)) :
  Forall (fun r => error_of_row r <> int64_min) rows ->
  exists df' m,
    calculate_metrics (frame_of_rows rows) = inr (df', m)
    /\ df' !! "Absolute_Error" = Some (Int64 (map (fun r => Z.abs (error_of_row r)) rows))
    /\ Forall (fun r => 0 <= abs_error_of_row r) rows.
Proof.
  intros H. rewrite calculate_metrics_rows. do 2 eexists. split; [reflexivity|].
  rewrite frame_num_abs, abs_errors_of_rows.
  assert (E : forall r, error_of_row r <> int64_min ->
                        abs_error_of_row r = Z.abs (error_of_row r)).
  { intros r Hr. unfold abs_error_of_row. fold (error_of_row r).
    apply wrap64_id. pose proof (wrap64_range (snd r - fst r)) as R.
    fold (error_of_row r) in R. unfold in_int64, int64_min, int64_max in *. lia. }
  split.
  - do 2 f_equal. induction H as [|r rows Hr _ IH]; [reflexivity|].
    cbn [map]. rewrite IH. f_equal. now apply E.
  - induction H as [|r rows Hr _ IH]; constructor; [|exact IH].
    rewrite (E r Hr). lia.
Qed.

Lemma absolute_error_not_negative_witness :
  Forall (fun r => error_of_row r <> int64_min) [(100, 110); (200, 180)]
  /\ exists df' m,
       calculate_metrics (frame_of_rows [(100, 110); (200, 180)]) = inr (df', m)
       /\ df' !! "Absolute_Error" =
            Some (Int64 (map (fun r => Z.abs (error_of_row r)) [(100, 110); (200, 180)]))
       /\ Forall (fun r => 0 <= abs_error_of_row r) [(100, 110); (200, 180)].
Proof.
  assert (H : Forall (fun r => error_of_row r <> int64_min) [(100, 110); (200, 180)]).
  { repeat constructor; vm_compute; discriminate. }
  split; [exact H|]. exact (absolute_error_not_negative _ H).
Defined.

(** The exception to the property above: an error of -2^63 keeps its sign. *)
Lemma absolute_error_of_int64_min :
  abs_error_of_row (0, int64_min) = int64_min.
Proof. reflexivity. Qed.

Lemma replaced_is_not_inf x :
  (if F64.eqb x F64.inf then F64.zero else x) <> F64.inf.
Proof.
  destruct (F64.eqb x F64.inf) eqn:E; [discriminate|].
  intros ->. discriminate E.
Qed.

(** X3: whenever [calculate_metrics] returns, [Percentage_Error] is a
    float column that holds no [+inf]: the quotients by a zero actual
    have been replaced. *)
Theorem percentage_error_has_no_inf (df df' : DataFrame) (m : Metrics) :
  calculate_metrics df = inr (df', m) ->
  exists xs,
    df' !! "Percentage_Error" = Some (Float64 xs)
    /\ Forall (fun x => x <> F64.inf) xs.
Proof.
  rewrite calculate_metrics_outcome.
  destruct (df !! "Forecast") as [f|]; [|discriminate].
  destruct (df !! "Actual") as [a|]; [|discriminate].
  destruct (is_numeric f && is_numeric a); [|discriminate].
  intros [= <- <-]. rewrite frame_num_pct.
  unfold pct_errors_of, num_div, replace_inf_0. eexists. split; [reflexivity|].
  induction (zip_with F64.div _ _) as [|y l IH]; cbn [map]; constructor;
    [apply replaced_is_not_inf | exact IH].
Qed.

Lemma percentage_error_has_no_inf_witness :
  exists df' m xs,
    calculate_metrics (frame_of_rows [(0, 10); (0, 20)]) = inr (df', m)
    /\ df' !! "Percentage_Error" = Some (Float64 xs)
    /\ Forall (fun x => x <> F64.inf) xs.
Proof.
  pose proof (calculate_metrics_rows [(0, 10); (0, 20)]) as E.
  destruct (percentage_error_has_no_inf _ _ _ E) as (xs & H1 & H2).
  eexists _, _, xs. split; [exact E|]. split; assumption.
Defined.

Lemma col_len_num_sub f a :
  is_numeric f = true -> is_numeric a = true ->
  col_len (num_sub f a) = Nat.min (col_len f) (col_len a).
Proof.
  destruct f, a; simpl; intros; try discriminate;
    rewrite length_zip_with, ?length_map; reflexivity.
Qed.

Lemma col_len_num_abs c : is_numeric c = true -> col_len (num_abs c) = col_len c.
Proof. destruct c; simpl; intros; try discriminate; now rewrite length_map. Qed.

Lemma is_numeric_num_sub f a :
  is_numeric f = true -> is_numeric a = true -> is_numeric (num_sub f a) = true.
Proof. intros Hf Ha. apply (num_sub_numeric f a Hf Ha). Qed.

Lemma is_numeric_num_abs c : is_numeric c = true -> is_numeric (num_abs c) = true.
Proof. intros H. apply (num_abs_numeric c H). Qed.

Lemma col_len_pct f a :
  is_numeric f = true -> is_numeric a = true ->
  col_len (pct_errors_of f a) = Nat.min (col_len f) (col_len a).
Proof.
  intros Hf Ha. unfold pct_errors_of, num_div, replace_inf_0. cbn [col_len].
  rewrite length_map, length_zip_with.
  rewrite !length_as_floats
    by (try assumption; apply is_numeric_num_abs, is_numeric_num_sub; assumption).
  unfold abs_errors_of, errors_of.
  rewrite col_len_num_abs by (apply is_numeric_num_sub; assumption).
  rewrite col_len_num_sub by assumption. lia.
Qed.

Lemma calculate_metrics_inr (df df' : DataFrame) m :
  calculate_metrics df = inr (df', m) ->
  exists f a,
    df !! "Forecast" = Some f /\ df !! "Actual" = Some a
    /\ is_numeric f = true /\ is_numeric a = true
    /\ df' = frame_num df f a /\ m = metrics_num f a.
Proof.
  rewrite calculate_metrics_outcome.
  destruct (df !! "Forecast") as [f|]; [|discriminate].
  destruct (df !! "Actual") as [a|]; [|discriminate].
  destruct (is_numeric f) eqn:Nf, (is_numeric a) eqn:Na; try discriminate.
  intros [= <- <-]. exists f, a. auto 10.
Qed.

(** X4: the frame stays rectangular: when [Forecast] and [Actual] have
    the same number of rows, each of the three derived columns has that
    number of rows. *)
Theorem derived_columns_have_all_rows (df df' : DataFrame) (m : Metrics) (f a : column) :
  calculate_metrics df = inr (df', m) ->
  df !! "Forecast" = Some f -> df !! "Actual" = Some a ->
  col_len f = col_len a ->
  exists e ae pe,
    df' !! "Error" = Some e /\ df' !! "Absolute_Error" = Some ae
    /\ df' !! "Percentage_Error" = Some pe
    /\ col_len e = col_len a /\ col_len ae = col_len a /\ col_len pe = col_len a.
Proof.
  intros H Hf Ha L.
  apply calculate_metrics_inr in H as (f' & a' & Hf' & Ha' & Nf & Na & -> & ->).
  rewrite Hf in Hf'. rewrite Ha in Ha'. injection Hf' as <-. injection Ha' as <-.
  exists (errors_of f a), (abs_errors_of f a), (pct_errors_of f a).
  rewrite frame_num_error, frame_num_abs, frame_num_pct.
  repeat (split; [reflexivity|]).
  unfold abs_errors_of, errors_of.
  rewrite col_len_num_abs by (apply is_numeric_num_sub; assumption).
  rewrite col_len_num_sub, col_len_pct by assumption. lia.
Qed.

Lemma derived_columns_have_all_rows_witness :
  exists e ae pe,
    frame_num (frame_of_rows rows_skewed) (forecasts rows_skewed) (actuals rows_skewed)
      !! "Error" = Some e
    /\ frame_num (frame_of_rows rows_skewed) (forecasts rows_skewed) (actuals rows_skewed)
         !! "Absolute_Error" = Some ae
    /\ frame_num (frame_of_rows rows_skewed) (forecasts rows_skewed) (actuals rows_skewed)
         !! "Percentage_Error" = Some pe
    /\ col_len e = 3%nat /\ col_len ae = 3%nat /\ col_len pe = 3%nat.
Proof.
  apply (derived_columns_have_all_rows (frame_of_rows rows_skewed) _
           (metrics_num (forecasts rows_skewed) (actuals rows_skewed))
           (forecasts rows_skewed) (actuals rows_skewed)).
  - vm_compute. reflexivity.
  - vm_compute. reflexivity.
  - vm_compute. reflexivity.
  - reflexivity.
Defined.

(** ** Calling again *)

Lemma frame_num_twice (df : DataFrame) f a :
  frame_num (frame_num df f a) f a = frame_num df f a.
Proof.
  apply map_eq. intros k. unfold frame_num.
  destruct (decide (k = "Percentage_Error")) as [->|N1];
    [now rewrite !lookup_insert_eq|].
  rewrite !(lookup_insert_ne _ "Percentage_Error" k) by done.
  destruct (decide (k = "Absolute_Error")) as [->|N2];
    [now rewrite !lookup_insert_eq|].
  rewrite !(lookup_insert_ne _ "Absolute_Error" k) by done.
  destruct (decide (k = "Error")) as [->|N3];
    [now rewrite !lookup_insert_eq|].
  rewrite !(lookup_insert_ne _ "Error" k) by done.
  rewrite !(lookup_insert_ne _ "Percentage_Error" k) by done.
  rewrite !(lookup_insert_ne _ "Absolute_Error" k) by done.
  now rewrite !(lookup_insert_ne _ "Error" k) by done.
Qed.

(** X5: calling [calculate_metrics] again on the frame it returned (as
    every rerun of the script does on a cached frame) changes nothing:
    the same frame and the same metrics come back. *)
Theorem calculate_metrics_again (df df' : DataFrame) (m : Metrics) :
  calculate_metrics df = inr (df', m) ->
  calculate_metrics df' = inr (df', m).
Proof.
  intros H.
  apply calculate_metrics_inr in H as (f & a & Hf & Ha & Nf & Na & -> & ->).
  rewrite (calculate_metrics_numeric (frame_num df f a) f a); try assumption.
  - now rewrite frame_num_twice.
  - unfold frame_num. now rewrite !lookup_insert_ne by done.
  - unfold frame_num. now rewrite !lookup_insert_ne by done.
Qed.

Lemma calculate_metrics_again_witness :
  calculate_metrics
    (frame_num (frame_of_rows rows_skewed) (forecasts rows_skewed) (actuals rows_skewed)) =
  inr (frame_num (frame_of_rows rows_skewed) (forecasts rows_skewed) (actuals rows_skewed),
       metrics_num (forecasts rows_skewed) (actuals rows_skewed)).
Proof.
  apply (calculate_metrics_again (frame_of_rows rows_skewed)).
  vm_compute. reflexivity.
Defined.

(** ** The histogram: what it needs and how it fails *)

Lemma pd_cut_numeric x n :
  is_numeric x = true ->
  pd_cut x n =
  (bins <- nbins_to_bins (as_floats x) n ;;
   if negb (all_distinct bins) && negb (Nat.eqb (length bins) 2)
   then raise (ValueError "Bin edges must be unique")
   else ret (intervals bins, map (bin_code bins) (as_floats x))).
Proof. destruct x; simpl; intros; try discriminate; reflexivity. Qed.

Lemma histogram_numeric (df : DataFrame) f a :
  df !! "Forecast" = Some f -> df !! "Actual" = Some a ->
  is_numeric f = true -> is_numeric a = true ->
  histogram df = (c <- pd_cut (errors_of f a) 5 ;; ret (value_counts c)).
Proof.
  intros Hf Ha Nf Na. unfold histogram.
  rewrite (calculate_metrics_numeric df f a Hf Ha Nf Na). cbn [bind fst].
  unfold error_bins, error_bins_of, getitem. rewrite frame_num_error. reflexivity.
Qed.

(** X6: the histogram reads the [Error] column that [calculate_metrics]
    assigns: on a frame without that column [error_bins] raises
    [KeyError('Error')], and on the frame a successful
    [calculate_metrics] returns it never raises a [KeyError]. *)
Theorem histogram_needs_the_error_column (df : DataFrame) :
  df !! "Error" = None ->
  error_bins df = inl (KeyError "Error")
  /\ forall df' m key,
       calculate_metrics df = inr (df', m) -> error_bins df' <> inl (KeyError key).
Proof.
  intros H. split.
  - unfold error_bins, error_bins_of, getitem. now rewrite H.
  - intros df' m key Hc.
    apply calculate_metrics_inr in Hc as (f & a & Hf & Ha & Nf & Na & -> & ->).
    unfold error_bins, error_bins_of, getitem. rewrite frame_num_error. cbn [bind ret].
    rewrite pd_cut_numeric by (apply is_numeric_num_sub; assumption).
    destruct (nbins_to_bins _ 5) as [e|bins] eqn:Hb; cbn [bind].
    + unfold nbins_to_bins in Hb.
      destruct (as_floats (errors_of f a)); [injection Hb as <-; discriminate|].
      destruct (F64.is_inf _ || F64.is_inf _); [injection Hb as <-; discriminate|].
      destruct (F64.eqb _ _); [discriminate|].
      destruct (np_linspace _ _ _); discriminate.
    + destruct (negb _ && negb _); discriminate.
Qed.

Lemma histogram_needs_the_error_column_witness :
  frame_of_rows rows_skewed !! "Error" = None
  /\ error_bins (frame_of_rows rows_skewed) = inl (KeyError "Error")
  /\ forall df' m key,
       calculate_metrics (frame_of_rows rows_skewed) = inr (df', m) ->
       error_bins df' <> inl (KeyError key).
Proof.
  assert (H : frame_of_rows rows_skewed !! "Error" = None) by (vm_compute; reflexivity).
  split; [exact H|]. exact (histogram_needs_the_error_column _ H).
Defined.

Lemma length_zero_nil {A} (l : list A) : length l = O -> l = [].
Proof. destruct l; [reflexivity | discriminate]. Qed.

(** X7: on a frame whose numeric [Forecast] or [Actual] column has no
    row, [calculate_metrics] returns (a summary of NaN) but the histogram
    raises [ValueError('Cannot cut empty array')]. *)
Theorem histogram_of_no_rows (df : DataFrame) (f a : column) :
  df !! "Forecast" = Some f -> df !! "Actual" = Some a ->
  is_numeric f = true -> is_numeric a = true ->
  col_len f = O \/ col_len a = O ->
  (exists r, calculate_metrics df = inr r)
  /\ histogram df = inl (ValueError "Cannot cut empty array").
Proof.
  intros Hf Ha Nf Na L. split.
  - rewrite (calculate_metrics_numeric df f a Hf Ha Nf Na). eauto.
  - rewrite (histogram_numeric df f a Hf Ha Nf Na).
    rewrite pd_cut_numeric by (apply is_numeric_num_sub; assumption).
    assert (E : as_floats (errors_of f a) = []).
    { apply length_zero_nil. rewrite length_as_floats
        by (apply is_numeric_num_sub; assumption).
      unfold errors_of. rewrite col_len_num_sub by assumption. lia. }
    rewrite E. reflexivity.
Qed.

Lemma histogram_of_no_rows_witness :
  (exists r, calculate_metrics (frame_of_rows []) = inr r)
  /\ histogram (frame_of_rows []) = inl (ValueError "Cannot cut empty array").
Proof.
  apply (histogram_of_no_rows (frame_of_rows []) (Int64 []) (Int64 []));
    try reflexivity.
  left. reflexivity.
Defined.

(** X8: whatever the frame, the histogram adds nothing of its own to the
    ways of failing but a [ValueError]: when it fails, either
    [calculate_metrics] failed with the same exception or the exception
    is a [ValueError] of [pd.cut]. *)
Theorem histogram_fails_with_value_error (df : DataFrame) (e : exn) :
  histogram df = inl e ->
  calculate_metrics df = inl e \/ exists msg, e = ValueError msg.
Proof.
  unfold histogram. destruct (calculate_metrics df) as [e'|[df' m]] eqn:Hc; cbn [bind fst].
  - intros [= <-]. now left.
  - intros H. right.
    apply calculate_metrics_inr in Hc as (f & a & Hf & Ha & Nf & Na & -> & ->).
    unfold error_bins, error_bins_of, getitem in H. rewrite frame_num_error in H.
    cbn [bind ret] in H.
    rewrite pd_cut_numeric in H by (apply is_numeric_num_sub; assumption).
    destruct (nbins_to_bins _ 5) as [e'|bins] eqn:Hb; cbn [bind] in H.
    + injection H as <-. unfold nbins_to_bins in Hb.
      destruct (as_floats (errors_of f a)); [injection Hb as <-; eauto|].
      destruct (F64.is_inf _ || F64.is_inf _); [injection Hb as <-; eauto|].
      destruct (F64.eqb _ _); [discriminate|].
      destruct (np_linspace _ _ _); discriminate.
    + destruct (negb _ && negb _); [injection H as <-; eauto | discriminate].
Qed.

Lemma histogram_fails_with_value_error_witness :
  calculate_metrics (frame_of_rows []) = inl (ValueError "Cannot cut empty array")
  \/ exists msg, ValueError "Cannot cut empty array" = ValueError msg.
Proof.
  apply (histogram_fails_with_value_error (frame_of_rows [])).
  vm_compute. reflexivity.
Defined.

(** ** Rows without a bin *)

Lemma total_count_binned bins xs :
  total_count (sort_desc (counts_table (intervals bins) (map (bin_code bins) xs))) =
  length (List.filter (in_span bins) xs).
Proof.
  rewrite (total_count_perm _ _ (sort_desc_perm _)), total_count_table.
  rewrite (filter_map_ext _ has_bin) by apply bin_code_below.
  rewrite length_filter_map. f_equal.
  induction xs as [|x l IH]; simpl; [reflexivity|].
  now rewrite bin_code_in_span, IH.
Qed.

Lemma in_span_valid bins xs :
  (length (List.filter (in_span bins) xs) <= count_valid xs)%nat.
Proof.
  unfold count_valid. induction xs as [|x l IH]; simpl; [lia|].
  unfold in_span at 1. destruct (F64.is_nan x); simpl; [lia|].
  destruct (_ && _); simpl; lia.
Qed.

Lemma count_valid_le xs : (count_valid xs <= length xs)%nat.
Proof.
  unfold count_valid. induction xs as [|x l IH]; simpl; [lia|].
  destruct (negb _); simpl; lia.
Qed.

(** X9: the histogram never counts a row twice nor a row whose error is
    missing: the counts add up to at most the number of rows whose error
    is not NaN, hence to at most the number of rows. *)
Theorem counts_within_valid_rows (nbins : nat) (df : DataFrame) (h : list (Interval * nat)) :
  histogram_of nbins df = inr h ->
  exists df' m e,
    calculate_metrics df = inr (df', m)
    /\ df' !! "Error" = Some e
    /\ (total_count h <= count_valid (as_floats e))%nat
    /\ (count_valid (as_floats e) <= col_len e)%nat.
Proof.
  intros H.
  apply histogram_of_inr in H as (f & a & bins & Hc & N & He & Hb & ->).
  exists (frame_num df f a), (metrics_num f a), (errors_of f a).
  repeat (split; [assumption|]). split.
  - rewrite total_count_binned. apply in_span_valid.
  - rewrite <- (length_as_floats _ N). apply count_valid_le.
Qed.

Lemma counts_within_valid_rows_witness :
  exists h,
    histogram_of 5 frame_missing_forecast = inr h
    /\ exists df' m e,
         calculate_metrics frame_missing_forecast = inr (df', m)
         /\ df' !! "Error" = Some e
         /\ (total_count h <= count_valid (as_floats e))%nat
         /\ (count_valid (as_floats e) <= col_len e)%nat.
Proof.
  eexists. split; [vm_compute; reflexivity|].
  apply (counts_within_valid_rows 5 frame_missing_forecast).
  vm_compute. reflexivity.
Defined.

(** ** The generated frame *)

Lemma float_to_int64_range x : in_int64 (float_to_int64 x).
Proof.
  unfold float_to_int64, in_int64.
  destruct (F64.trunc x) as [t|]; [|unfold int64_min, int64_max; lia].
  destruct ((int64_min <=? t) && (t <=? int64_max)) eqn:E.
  - apply andb_true_iff in E as [E1 E2]. apply Z.leb_le in E1, E2. lia.
  - unfold int64_min, int64_max. lia.
Qed.

Lemma Forall_map_range {A} (f : A -> float) (l : list A) :
  Forall in_int64 (map (fun x => float_to_int64 (f x)) l).
Proof. induction l; cbn [map]; constructor; auto using float_to_int64_range. Qed.

(** X10: with a generator that returns as many draws as it is asked
    for, [generate_data(n)] returns a frame of exactly the three columns
    [Date], [Actual] and [Forecast], each of [n] rows; [Actual] and
    [Forecast] are integer columns whose values all fit in 64 bits. *)
Theorem generated_frame_shape
    (rng : Type) (seed : Z -> rng)
    (normal : float -> float -> nat -> rng -> list float * rng)
    (n : nat) (g : rng) :
  (forall loc scale k s, length (fst (normal loc scale k s)) = k) ->
  exists a f,
    fst (generate_data rng seed normal n g) =
      <["Date" := Datetime64 (date_range n)]>
        (<["Actual" := Int64 a]> (<["Forecast" := Int64 f]> ∅))
    /\ length (date_range n) = n /\ length a = n /\ length f = n
    /\ Forall in_int64 a /\ Forall in_int64 f.
Proof.
  intros L. unfold generate_data.
  pose proof (L (F64.of_int 500) (F64.div (F64.of_int 500) (F64.of_int 3)) n (seed 42)) as L1.
  destruct (normal (F64.of_int 500) _ n (seed 42)) as [draws g1]. cbn [fst] in L1.
  pose proof (L (F64.div (F64.of_int 9) (F64.of_int 10))
                (F64.div (F64.of_int 2) (F64.of_int 10)) n g1) as L2.
  destruct (normal (F64.div (F64.of_int 9) (F64.of_int 10)) _ n g1) as [noise g2].
  cbn [fst] in L2 |- *.
  do 2 eexists. split; [reflexivity|].
  split; [unfold date_range; now rewrite length_map, length_seq|].
  split; [now rewrite length_map|].
  split; [rewrite length_map, length_zip_with, length_map; lia|].
  split; [apply Forall_map_range|].
  induction (zip_with _ _ noise); cbn [map]; constructor;
    auto using float_to_int64_range.
Qed.

Lemma generated_frame_shape_witness :
  exists a f,
    fst (generate_data unit (fun _ => tt) constant_normal 3 tt) =
      <["Date" := Datetime64 (date_range 3)]>
        (<["Actual" := Int64 a]> (<["Forecast" := Int64 f]> ∅))
    /\ length (date_range 3) = 3%nat /\ length a = 3%nat /\ length f = 3%nat
    /\ Forall in_int64 a /\ Forall in_int64 f.
Proof.
  apply (generated_frame_shape unit (fun _ => tt) constant_normal 3 tt).
  intros loc scale k s. unfold constant_normal. cbn [fst]. apply repeat_length.
Defined.

(** X11: the metrics step of the analysis tab cannot raise, whatever the
    generator draws: [generate_data] always hands [calculate_metrics] two
    integer columns, and the frame that comes back has the [Error] column
    the histogram reads and still has [Date]. *)
Theorem tab2_metrics_never_raise
    (rng : Type) (seed : Z -> rng)
    (normal : float -> float -> nat -> rng -> list float * rng)
    (n : nat) (base noise : Z) (g : rng) :
  exists df' m,
    fst (tab2 rng seed normal n base noise g) = inr (df', m)
    /\ is_Some (df' !! "Error")
    /\ df' !! "Date" = Some (Datetime64 (date_range n)).
Proof.
  unfold tab2, generate_data.
  destruct (normal (F64.of_int 500) _ n (seed 42)) as [draws g1].
  destruct (normal (F64.div (F64.of_int 9) (F64.of_int 10)) _ n g1) as [noise' g2].
  cbn [fst].
  erewrite calculate_metrics_numeric; cycle 1.
  - rewrite !lookup_insert_ne by done. apply lookup_insert_eq.
  - rewrite lookup_insert_ne by done. apply lookup_insert_eq.
  - reflexivity.
  - reflexivity.
  - do 2 eexists. split; [reflexivity|]. split.
    + rewrite frame_num_error. eauto.
    + unfold frame_num. rewrite !lookup_insert_ne by done. apply lookup_insert_eq.
Qed.

(** ** Equal errors *)

Lemma fmin_same x : fmin x x = x.
Proof. unfold fmin. destruct (F64.is_nan x), (F64.ltb x x); reflexivity. Qed.

Lemma fmax_same x : fmax x x = x.
Proof. unfold fmax. destruct (F64.is_nan x), (F64.ltb x x); reflexivity. Qed.

Lemma fold_same (f : float -> float -> float) x k :
  f x x = x -> fold_left f (repeat x k) x = x.
Proof. intros H. induction k as [|k IH]; cbn [repeat fold_left]; [reflexivity|]. now rewrite H. Qed.

Lemma nanmin_repeat x k : nanmin (repeat x (S k)) = x.
Proof. unfold nanmin. cbn [repeat fold_left]. apply fold_same, fmin_same. Qed.

Lemma nanmax_repeat x k : nanmax (repeat x (S k)) = x.
Proof. unfold nanmax. cbn [repeat fold_left]. apply fold_same, fmax_same. Qed.

Lemma nbins_to_bins_repeat x k nbins :
  nbins_to_bins (repeat x (S k)) nbins = nbins_to_bins [x] nbins.
Proof.
  pose proof (nanmin_repeat x k) as E1. pose proof (nanmax_repeat x k) as E2.
  pose proof (nanmin_repeat x 0) as E3. pose proof (nanmax_repeat x 0) as E4.
  cbn [repeat] in E1, E2, E3, E4. unfold nbins_to_bins. cbn [repeat].
  rewrite E1, E2, E3, E4. reflexivity.
Qed.

Lemma count_code_repeat c k i :
  count_code (repeat c k) i = (k * count_code [c] i)%nat.
Proof.
  unfold count_code. induction k as [|k IH]; [reflexivity|].
  cbn [repeat List.filter] in *. destruct (code_eqb (Some i) c); cbn [length] in *; lia.
Qed.

Lemma counts_table_repeat cats c k :
  counts_table cats (repeat c k) = map (scale_count k) (counts_table cats [c]).
Proof.
  unfold counts_table.
  enough (G : forall (f g : nat -> nat), (forall i, f i = (k * g i)%nat) ->
             imap (fun i iv => (iv, f i)) cats =
             map (scale_count k) (imap (fun i iv => (iv, g i)) cats)).
  { apply G. intros i. apply count_code_repeat. }
  induction cats as [|iv cats IH]; intros f g H; [reflexivity|].
  cbn [imap map]. unfold scale_count at 1. cbn [fst snd]. rewrite H. f_equal.
  apply (IH (fun i => f (S i)) (fun i => g (S i))). intros i. apply H.
Qed.

Lemma insert_desc_scale k x l :
  (0 < k)%nat ->
  insert_desc (scale_count k x) (map (scale_count k) l) =
  map (scale_count k) (insert_desc x l).
Proof.
  intros Hk. induction l as [|y l IH]; [reflexivity|].
  cbn [map insert_desc]. unfold scale_count at 1 2. cbn [snd].
  replace (k * snd y <=? k * snd x)%nat with (snd y <=? snd x)%nat.
  - destruct (snd y <=? snd x)%nat; cbn [map]; [reflexivity|].
    f_equal. exact IH.
  - destruct (snd y <=? snd x)%nat eqn:E; symmetry.
    + apply Nat.leb_le in E. apply Nat.leb_le. nia.
    + apply Nat.leb_gt in E. apply Nat.leb_gt. nia.
Qed.

Lemma sort_desc_scale k (l : list (Interval * nat)) :
  (0 < k)%nat ->
  sort_desc (map (scale_count k) l) = map (scale_count k) (sort_desc l).
Proof.
  intros Hk. induction l as [|x l IH]; [reflexivity|].
  cbn [map sort_desc fold_right]. fold (sort_desc (map (scale_count k) l)).
  fold (sort_desc l). rewrite IH. now apply insert_desc_scale.
Qed.

Lemma wrap64_twice z : wrap64 (wrap64 z) = wrap64 z.
Proof. apply wrap64_id, wrap64_range. Qed.

Lemma map_constant {A B} (f : A -> B) (l : list A) b :
  Forall (fun a => f a = b) l -> map f l = repeat b (length l).
Proof. induction 1 as [|a l Ha _ IH]; cbn [map length repeat]; congruence. Qed.

Lemma histogram_rows rows :
  histogram (frame_of_rows rows) =
  (c <- pd_cut (Int64 (map error_of_row rows)) 5 ;; ret (value_counts c)).
Proof.
  rewrite (histogram_numeric _ (forecasts rows) (actuals rows));
    auto using frame_of_rows_forecast, frame_of_rows_actual.
  now rewrite errors_of_rows.
Qed.

(** X12: rows that all have the same error are binned like one row: if
    the histogram of the single row (0, v) is produced, then for any
    number of rows of error v the histogram is produced too, with the
    same five intervals in the same order and each count multiplied by
    the number of rows (so that all rows sit in the bin of v, or in none
    if v has none).  The edges depend on the common value only. *)
Theorem equal_errors_are_binned_together
    (rows : list (Z * Z)) (v : Z) (h1 : list (Interval * nat)) :
  rows <> [] ->
  Forall (fun r => error_of_row r = v) rows ->
  histogram (frame_of_rows [(0, v)]) = inr h1 ->
  exists h,
    histogram (frame_of_rows rows) = inr h
    /\ map fst h = map fst h1
    /\ map snd h = map (Nat.mul (length rows)) (map snd h1).
Proof.
  intros Hne Hv H1.
  assert (Wv : wrap64 v = v).
  { destruct rows as [|r rows]; [contradiction|].
    inversion Hv as [|? ? Hr _]; subst. unfold error_of_row. apply wrap64_twice. }
  assert (Hk : exists k, length rows = S k).
  { destruct rows as [|r rows]; [contradiction|]. cbn [length]. eauto. }
  destruct Hk as [k Hk].
  rewrite histogram_rows in H1 |- *.
  rewrite (map_constant _ _ _ Hv), Hk.
  cbn [map] in H1. unfold error_of_row in H1. cbn [fst snd] in H1.
  rewrite Z.sub_0_r, Wv in H1.
  rewrite pd_cut_numeric in H1 |- * by reflexivity.
  cbn [as_floats map] in H1. cbn [as_floats]. rewrite map_repeat.
  rewrite nbins_to_bins_repeat.
  destruct (nbins_to_bins [F64.of_int v] 5) as [e|bins]; [discriminate|].
  cbn [bind] in H1 |- *.
  destruct (negb _ && negb _); [discriminate|].
  cbn [ret value_counts] in H1 |- *. injection H1 as <-.
  rewrite map_repeat. eexists. split; [reflexivity|].
  unfold value_counts.
  rewrite counts_table_repeat, sort_desc_scale by lia.
  rewrite !map_map. split.
  - reflexivity.
  - reflexivity.
Qed.

Lemma equal_errors_are_binned_together_witness :
  exists h1,
    histogram (frame_of_rows [(0, 7)]) = inr h1
    /\ map snd h1 = [1; 0; 0; 0; 0]%nat
    /\ exists h,
         histogram (frame_of_rows rows_of_seven) = inr h
         /\ map fst h = map fst h1
         /\ map snd h = map (Nat.mul (length rows_of_seven)) (map snd h1).
Proof.
  eexists. split; [vm_compute; reflexivity|]. split; [reflexivity|].
  apply (equal_errors_are_binned_together rows_of_seven 7).
  - discriminate.
  - repeat constructor.
  - vm_compute. reflexivity.
Defined.

(** ** Conversion of integers to doubles

    Rounding to 53 bits never turns a non-zero integer into zero or NaN:
    the shifts of [binary_round_aux] keep a mantissa of 53 bits. *)


Lemma digits2_bounds p :
  2 ^ (Zpos (digits2_pos p) - 1) <= Zpos p < 2 ^ Zpos (digits2_pos p).
Proof.
  induction p as [p IH|p IH|]; cbn [digits2_pos].
  - rewrite Pos2Z.inj_succ.
    replace (Z.succ (Zpos (digits2_pos p)) - 1) with (Z.succ (Zpos (digits2_pos p) - 1)) by lia.
    rewrite !Z.pow_succ_r by lia. lia.
  - rewrite Pos2Z.inj_succ.
    replace (Z.succ (Zpos (digits2_pos p)) - 1) with (Z.succ (Zpos (digits2_pos p) - 1)) by lia.
    rewrite !Z.pow_succ_r by lia. lia.
  - simpl. lia.
Qed.

Lemma digits2_unique p k :
  2 ^ (k - 1) <= Zpos p < 2 ^ k -> Zpos (digits2_pos p) = k.
Proof.
  intros [L U]. pose proof (digits2_bounds p) as [L' U'].
  assert (0 < k).
  { destruct (Z_lt_le_dec 0 k); [assumption|].
    destruct (Z.eq_dec k 0) as [->|]; [simpl in U; lia|].
    rewrite Z.pow_neg_r in U by lia. lia. }
  destruct (Z_lt_le_dec (Zpos (digits2_pos p)) k) as [C|C].
  - assert (2 ^ Zpos (digits2_pos p) <= 2 ^ (k - 1)) by (apply Z.pow_le_mono_r; lia). lia.
  - destruct (Z_lt_le_dec k (Zpos (digits2_pos p))) as [C'|C']; [|lia].
    assert (2 ^ k <= 2 ^ (Zpos (digits2_pos p) - 1)) by (apply Z.pow_le_mono_r; lia). lia.
Qed.

Lemma div_pow2_bounds m d k :
  0 <= k -> k < d ->
  2 ^ (d - 1) <= m < 2 ^ d ->
  2 ^ (d - 1 - k) <= m / 2 ^ k < 2 ^ (d - k).
Proof.
  intros Hk Hd [L U].
  assert (P : 0 < 2 ^ k) by (apply Z.pow_pos_nonneg; lia).
  split.
  - apply Z.div_le_lower_bound; [exact P|].
    rewrite <- Z.pow_add_r by lia. replace (k + (d - 1 - k)) with (d - 1) by lia. exact L.
  - apply Z.div_lt_upper_bound; [exact P|].
    rewrite <- Z.pow_add_r by lia. replace (k + (d - k)) with d by lia. exact U.
Qed.

Lemma shr_1_m mrs : 0 <= shr_m mrs -> shr_m (shr_1 mrs) = shr_m mrs / 2.
Proof.
  destruct mrs as [m r s]. cbn [shr_m]. intros Hm.
  destruct m as [|p|p]; [reflexivity| |lia].
  destruct p as [p|p|]; cbn [shr_1 shr_m].
  - rewrite Pos2Z.inj_xI. apply Z.div_unique with 1; lia.
  - rewrite Pos2Z.inj_xO. apply Z.div_unique with 0; lia.
  - reflexivity.
Qed.

Lemma iter_pos_nat {A} (f : A -> A) p x :
  SpecFloat.iter_pos f p x = Nat.iter (Pos.to_nat p) f x.
Proof.
  revert x. induction p as [p IH|p IH|]; intros x; cbn [SpecFloat.iter_pos].
  - rewrite !IH. rewrite <- Nat.iter_succ_r, <- Nat.iter_add.
    f_equal. rewrite Pos2Nat.inj_xI. lia.
  - rewrite !IH. rewrite <- Nat.iter_add. f_equal. rewrite Pos2Nat.inj_xO. lia.
  - reflexivity.
Qed.

Lemma shr_iter_m k mrs :
  0 <= shr_m mrs ->
  shr_m (Nat.iter k shr_1 mrs) = shr_m mrs / 2 ^ Z.of_nat k.
Proof.
  intros Hm. induction k as [|k IH].
  - change (2 ^ Z.of_nat 0) with 1. now rewrite Z.div_1_r.
  - rewrite Nat.iter_succ.
    assert (P : 0 <= shr_m (Nat.iter k shr_1 mrs)).
    { rewrite IH. apply Z.div_pos; [lia|]. apply Z.pow_pos_nonneg; lia. }
    rewrite (shr_1_m _ P), IH, Nat2Z.inj_succ, Z.pow_succ_r by lia.
    rewrite Z.div_div by (try lia; apply Z.pow_pos_nonneg; lia).
    f_equal. lia.
Qed.

Lemma rne_cases m l :
  round_nearest_even m l = m \/ round_nearest_even m l = m + 1.
Proof.
  destruct l as [|[| |]]; cbn [round_nearest_even]; auto.
  destruct (Z.even m); auto.
Qed.

Lemma shr_m_record_of_loc m l : shr_m (shr_record_of_loc m l) = m.
Proof. destruct l as [|[| |]]; reflexivity. Qed.

Lemma fexp_normal x : -1074 <= x - 53 -> fexp 53 1024 x = x - 53.
Proof. intros H. unfold fexp, emin. lia. Qed.

Lemma shr_fexp_m p e l :
  let d := Zpos (digits2_pos p) in
  53 <= d -> -1074 <= d + e - 53 ->
  exists mrs,
    shr_fexp 53 1024 (Zpos p) e l = (mrs, d + e - 53)
    /\ shr_m mrs = Zpos p / 2 ^ (d - 53).
Proof.
  intros d Hd Hn. unfold shr_fexp. cbn [Zdigits2]. fold d.
  rewrite fexp_normal by lia.
  replace (d + e - 53 - e) with (d - 53) by lia.
  destruct (d - 53) as [|k|k] eqn:Ek; [| |lia].
  - eexists. split; [unfold shr; f_equal; lia|].
    now rewrite shr_m_record_of_loc, Z.div_1_r.
  - unfold shr. rewrite iter_pos_nat. eexists. split; [f_equal; lia|].
    rewrite shr_iter_m by (rewrite shr_m_record_of_loc; lia).
    now rewrite shr_m_record_of_loc, positive_nat_Z.
Qed.


Lemma shr_fexp_exact_53 q e :
  Zpos (digits2_pos q) = 53 -> -1074 <= e ->
  shr_fexp 53 1024 (Zpos q) e loc_Exact = (Build_shr_record (Zpos q) false false, e).
Proof.
  intros Dq He. unfold shr_fexp. cbn [Zdigits2]. rewrite Dq.
  rewrite fexp_normal by lia.
  replace (53 + e - 53 - e) with 0 by lia. reflexivity.
Qed.

Lemma shr_fexp_exact_carry e :
  -1074 <= e ->
  shr_fexp 53 1024 (2 ^ 53) e loc_Exact =
  (Build_shr_record (2 ^ 52) false false, e + 1).
Proof.
  intros He. unfold shr_fexp.
  change (Zdigits2 (2 ^ 53)) with 54.
  rewrite fexp_normal by lia.
  replace (54 + e - 53 - e) with 1 by lia. reflexivity.
Qed.

Lemma bra_result s p e l :
  let d := Zpos (digits2_pos p) in
  53 <= d -> -1074 <= d + e - 53 ->
  (exists M E, binary_round_aux 53 1024 s (Zpos p) e l = S754_finite s M E)
  \/ (binary_round_aux 53 1024 s (Zpos p) e l = S754_infinity s /\ 1023 < d + e).
Proof.
  intros d Hd Hn.
  destruct (shr_fexp_m p e l Hd Hn) as (mrs & E1 & M1). fold d in E1, M1.
  unfold binary_round_aux. rewrite E1.
  pose proof (digits2_bounds p) as B. fold d in B.
  assert (B1 : 2 ^ 52 <= shr_m mrs < 2 ^ 53).
  { rewrite M1.
    pose proof (div_pow2_bounds (Zpos p) d (d - 53) ltac:(lia) ltac:(lia) B) as Q.
    replace (d - 1 - (d - 53)) with 52 in Q by lia.
    replace (d - (d - 53)) with 53 in Q by lia. exact Q. }
  pose proof (rne_cases (shr_m mrs) (loc_of_shr_record mrs)) as HM.
  set (M1' := round_nearest_even (shr_m mrs) (loc_of_shr_record mrs)) in *.
  assert (BM : 2 ^ 52 <= M1' <= 2 ^ 53) by lia.
  destruct (Z.eq_dec M1' (2 ^ 53)) as [Eq|Ne].
  - rewrite Eq, shr_fexp_exact_carry by lia. cbn [shr_m].
    change (2 ^ 52) with (Zpos 4503599627370496).
    destruct (d + e - 53 + 1 <=? 1024 - 53) eqn:L.
    + left. eauto.
    + right. split; [reflexivity|]. apply Z.leb_gt in L. lia.
  - destruct M1' as [|q|q] eqn:EM; [lia| |lia].
    assert (Dq : Zpos (digits2_pos q) = 53).
    { apply digits2_unique. change (2 ^ (53 - 1)) with (2 ^ 52). lia. }
    rewrite shr_fexp_exact_53 by (try assumption; lia). cbn [shr_m].
    destruct (d + e - 53 <=? 1024 - 53) eqn:L.
    + left. eauto.
    + right. split; [reflexivity|]. apply Z.leb_gt in L. lia.
Qed.

Lemma digits2_shift p k :
  Zpos (digits2_pos (Pos.iter xO p k)) = Zpos (digits2_pos p) + Zpos k.
Proof.
  induction k as [|k IH] using Pos.peano_ind.
  - cbn [Pos.iter digits2_pos]. lia.
  - rewrite Pos.iter_succ. cbn [digits2_pos]. rewrite Pos2Z.inj_succ, IH. lia.
Qed.

Lemma binary_round_result s p e :
  let d := Zpos (digits2_pos p) in
  -1074 <= d + e - 53 ->
  (exists M E, binary_round 53 1024 s p e = S754_finite s M E)
  \/ (binary_round 53 1024 s p e = S754_infinity s /\ 1023 < d + e).
Proof.
  intros d Hn. unfold binary_round. cbn [Zdigits2]. fold d.
  rewrite fexp_normal by lia. unfold shl_align.
  destruct (d + e - 53 - e) as [|k|k] eqn:Ek.
  - apply bra_result; cbn zeta; unfold d in *; lia.
  - apply bra_result; cbn zeta; unfold d in *; lia.
  - pose proof (digits2_shift p k) as D.
    destruct (bra_result s (Pos.iter xO p k) (d + e - 53) loc_Exact) as [F|[I L]];
      cbn zeta in *; unfold d in *; rewrite ?D in *; try lia.
    + left. exact F.
    + right. split; [exact I | lia].
Qed.

Lemma of_int_nonzero z :
  z <> 0 ->
  (exists m e, F64.of_int z = S754_finite (z <? 0) m e)
  \/ F64.of_int z = S754_infinity (z <? 0).
Proof.
  intros Hz. unfold F64.of_int, binary_normalize, F64.prec, F64.emax.
  destruct z as [|p|p]; [contradiction| |].
  - destruct (binary_round_result false p 0) as [F|[I _]]; auto.
    pose proof (digits2_bounds p). cbn zeta. lia.
  - destruct (binary_round_result true p 0) as [F|[I _]]; auto.
    pose proof (digits2_bounds p). cbn zeta. lia.
Qed.

Lemma of_int_finite z :
  z <> 0 -> - 2 ^ 64 < z < 2 ^ 64 ->
  exists m e, F64.of_int z = S754_finite (z <? 0) m e.
Proof.
  intros Hz Hb. unfold F64.of_int, binary_normalize, F64.prec, F64.emax.
  assert (D : forall p, Zpos p < 2 ^ 64 -> Zpos (digits2_pos p) <= 64).
  { intros p Hp. pose proof (digits2_bounds p) as [L _].
    destruct (Z_le_gt_dec (Zpos (digits2_pos p)) 64); [assumption|].
    assert (2 ^ 64 <= 2 ^ (Zpos (digits2_pos p) - 1)) by (apply Z.pow_le_mono_r; lia).
    lia. }
  destruct z as [|p|p]; [contradiction| |].
  - destruct (binary_round_result false p 0) as [F|[_ L]]; auto.
    + cbn zeta. lia.
    + specialize (D p ltac:(lia)). cbn zeta in L. lia.
  - destruct (binary_round_result true p 0) as [F|[_ L]]; auto.
    + cbn zeta. lia.
    + specialize (D p ltac:(lia)). cbn zeta in L. lia.
Qed.

(** ** Zero actual values *)

Lemma zip_with_maps {A B C D} (f : B -> C -> D) (g : A -> B) (h : A -> C) (l : list A) :
  zip_with f (map g l) (map h l) = map (fun x => f (g x) (h x)) l.
Proof. induction l as [|x l IH]; cbn [map zip_with]; congruence. Qed.

Lemma pct_errors_of_rows rows :
  pct_errors_of (forecasts rows) (actuals rows) =
  Float64 (map pct_error_of_row rows).
Proof.
  unfold pct_errors_of. rewrite abs_errors_of_rows.
  unfold num_div, replace_inf_0, actuals. cbn [as_floats].
  rewrite !map_map, (zip_with_maps F64.div), map_map. reflexivity.
Qed.

Lemma zero_actual_row_abs r :
  zero_actual_row r -> 0 < abs_error_of_row r < 2 ^ 63.
Proof.
  intros (Ha & Hf & Hr). unfold abs_error_of_row. rewrite Ha, Z.sub_0_r.
  unfold int64_min, int64_max in Hr.
  rewrite (wrap64_id (snd r)) by (unfold in_int64, int64_min, int64_max; lia).
  rewrite wrap64_id by (unfold in_int64, int64_min, int64_max; lia). lia.
Qed.

Lemma zero_actual_row_pct r :
  zero_actual_row r -> pct_error_of_row r = F64.zero.
Proof.
  intros H. pose proof (zero_actual_row_abs r H) as B. unfold pct_error_of_row.
  destruct H as (Ha & _). rewrite Ha.
  destruct (of_int_finite (abs_error_of_row r)) as (m & e & E); [lia|lia|].
  rewrite E. replace (abs_error_of_row r <? 0) with false by (symmetry; apply Z.ltb_ge; lia).
  reflexivity.
Qed.

(** X13: for rows whose actual is 0 and whose forecast is not 0 (nor
    -2^63), the quotient is +inf and is replaced: every entry of
    [Percentage_Error] is exactly 0.0. *)
Theorem zero_actual_gives_zero_percentage (rows : list (Z * Z)) :
  Forall zero_actual_row rows ->
  exists df' m,
    calculate_metrics (frame_of_rows rows) = inr (df', m)
    /\ df' !! "Percentage_Error" = Some (Float64 (repeat F64.zero (length rows))).
Proof.
  intros H. rewrite calculate_metrics_rows. do 2 eexists. split; [reflexivity|].
  rewrite frame_num_pct, pct_errors_of_rows. do 2 f_equal.
  induction H as [|r rows Hr _ IH]; [reflexivity|].
  cbn [map length repeat]. rewrite IH. f_equal. now apply zero_actual_row_pct.
Qed.

Lemma zero_actual_gives_zero_percentage_witness :
  Forall zero_actual_row rows_zero_actual
  /\ exists df' m,
       calculate_metrics (frame_of_rows rows_zero_actual) = inr (df', m)
       /\ df' !! "Percentage_Error" =
            Some (Float64 (repeat F64.zero (length rows_zero_actual))).
Proof.
  assert (H : Forall zero_actual_row rows_zero_actual).
  { repeat constructor; simpl; unfold int64_min, int64_max; lia. }
  split; [exact H|]. exact (zero_actual_gives_zero_percentage _ H).
Defined.

Lemma fsum_zeros k : fsum (repeat F64.zero k) = F64.zero.
Proof.
  unfold fsum. induction k as [|k IH]; [reflexivity|].
  cbn [repeat fold_left]. exact IH.
Qed.

Lemma count_valid_zeros k : count_valid (repeat F64.zero k) = k.
Proof.
  unfold count_valid. induction k as [|k IH]; [reflexivity|].
  cbn [repeat List.filter F64.is_nan F64.zero negb length]. now rewrite IH.
Qed.

Lemma map_nan_to_zero_zeros k :
  map nan_to_zero (repeat F64.zero k) = repeat F64.zero k.
Proof. induction k as [|k IH]; [reflexivity|]. cbn [repeat map]. now rewrite IH. Qed.

Lemma zero_div_count k : F64.div F64.zero (F64.of_int (Z.of_nat (S k))) = F64.zero.
Proof.
  destruct (of_int_nonzero (Z.of_nat (S k))) as [(m & e & E)|E]; [lia| |];
    rewrite E; replace (Z.of_nat (S k) <? 0) with false
      by (symmetry; apply Z.ltb_ge; lia); reflexivity.
Qed.

Lemma mean_of_zeros k : num_mean (Float64 (repeat F64.zero (S k))) = F64.zero.
Proof.
  unfold num_mean, series_mean. cbn [ret].
  rewrite count_valid_zeros, map_nan_to_zero_zeros, fsum_zeros.
  apply zero_div_count.
Qed.

(** X14: a dataset of such rows gets a perfect score: MAPE is exactly
    0.0 and Forecast_Accuracy exactly 100.0, although no percentage error
    is defined for any of its rows. *)
Theorem zero_actuals_score_perfectly (rows : list (Z * Z)) :
  rows <> [] -> Forall zero_actual_row rows ->
  exists df' m,
    calculate_metrics (frame_of_rows rows) = inr (df', m)
    /\ MAPE m = F64.zero
    /\ Forecast_Accuracy m = F64.of_int 100.
Proof.
  intros Hne H. rewrite calculate_metrics_rows. do 2 eexists. split; [reflexivity|].
  assert (E : pct_errors_of (forecasts rows) (actuals rows) =
              Float64 (repeat F64.zero (length rows))).
  { rewrite pct_errors_of_rows. f_equal.
    clear Hne. induction H as [|r rows Hr _ IH]; [reflexivity|].
    cbn [map length repeat]. rewrite IH. f_equal. now apply zero_actual_row_pct. }
  unfold metrics_num, MAPE, Forecast_Accuracy. rewrite E.
  destruct rows as [|r rows]; [contradiction|]. cbn [length].
  rewrite mean_of_zeros. split; vm_compute; reflexivity.
Qed.

Lemma zero_actuals_score_perfectly_witness :
  rows_zero_actual <> [] /\ Forall zero_actual_row rows_zero_actual
  /\ exists df' m,
       calculate_metrics (frame_of_rows rows_zero_actual) = inr (df', m)
       /\ MAPE m = F64.zero
       /\ Forecast_Accuracy m = F64.of_int 100.
Proof.
  assert (H : Forall zero_actual_row rows_zero_actual).
  { repeat constructor; simpl; unfold int64_min, int64_max; lia. }
  assert (N : rows_zero_actual <> []) by discriminate.
  split; [exact N|]. split; [exact H|].
  exact (zero_actuals_score_perfectly _ N H).
Defined.

Lemma sum_int64_range xs : in_int64 (sum_int64 xs).
Proof. rewrite sum_int64_zsum. apply wrap64_range. Qed.

(** X15: when the actual values sum to zero, WMAPE is decided by the
    sign of the sum of the absolute errors alone: +inf when it is
    positive, NaN when it is zero (0/0), -inf when the int64 sum has
    wrapped to a negative value. *)
Theorem wmape_with_zero_actual_sum (rows : list (Z * Z)) :
  sum_int64 (map fst rows) = 0 ->
  exists df' m,
    calculate_metrics (frame_of_rows rows) = inr (df', m)
    /\ WMAPE m =
         match sum_int64 (map abs_error_of_row rows) ?= 0 with
         | Gt => S754_infinity false
         | Eq => S754_nan
         | Lt => S754_infinity true
         end.
Proof.
  intros H. rewrite calculate_metrics_rows. do 2 eexists. split; [reflexivity|].
  rewrite wmape_of_rows, H.
  pose proof (sum_int64_range (map abs_error_of_row rows)) as R.
  unfold in_int64, int64_min, int64_max in R.
  set (s := sum_int64 (map abs_error_of_row rows)) in *.
  destruct (Z.compare_spec s 0) as [E|L|G].
  - rewrite E. reflexivity.
  - destruct (of_int_finite s) as (m & e & Es); [lia|lia|].
    rewrite Es. replace (s <? 0) with true by (symmetry; apply Z.ltb_lt; lia).
    reflexivity.
  - destruct (of_int_finite s) as (m & e & Es); [lia|lia|].
    rewrite Es. replace (s <? 0) with false by (symmetry; apply Z.ltb_ge; lia).
    reflexivity.
Qed.

Lemma wmape_with_zero_actual_sum_witness :
  sum_int64 (map fst rows_zero_actual) = 0
  /\ exists df' m,
       calculate_metrics (frame_of_rows rows_zero_actual) = inr (df', m)
       /\ WMAPE m =
            match sum_int64 (map abs_error_of_row rows_zero_actual) ?= 0 with
            | Gt => S754_infinity false
            | Eq => S754_nan
            | Lt => S754_infinity true
            end.
Proof.
  split; [reflexivity|].
  apply (wmape_with_zero_actual_sum rows_zero_actual). reflexivity.
Defined.

(** ** The figures shown *)

Lemma rne_div_near a b :
  0 < b -> 2 * Z.abs (a - rne_div a b * b) <= b.
Proof.
  intros Hb. unfold rne_div.
  pose proof (Z.div_mod a b ltac:(lia)) as E.
  pose proof (Z.mod_pos_bound a b Hb) as R.
  set (q := a / b) in *. set (r := a mod b) in *.
  destruct (2 * r <? b) eqn:C1; [apply Z.ltb_lt in C1; nia|].
  apply Z.ltb_ge in C1.
  destruct (b <? 2 * r) eqn:C2; [apply Z.ltb_lt in C2; nia|].
  apply Z.ltb_ge in C2.
  destruct (Z.even q); nia.
Qed.

Lemma rne_div_nonneg a b : 0 <= a -> 0 < b -> 0 <= rne_div a b.
Proof.
  intros Ha Hb. unfold rne_div.
  assert (0 <= a / b) by (apply Z.div_pos; lia).
  destruct (2 * (a mod b) <? b); [lia|].
  destruct (b <? 2 * (a mod b)); [lia|].
  destruct (Z.even (a / b)); lia.
Qed.

(** X16: the figure printed for a finite metric, in the report and on
    the dashboard, is its exact binary value rounded to the nearest
    hundredth: with [n] the printed digits read as an integer, the
    distance between [n] and 100 times the magnitude [m * 2^e] is at most
    one half; the sign is printed also when the digits are all zero. *)
Theorem two_decimals_are_the_nearest (s : bool) (m : positive) (e : Z) :
  exists n,
    hundredths (S754_finite s m e) = Some (s, n)
    /\ 0 <= n
    /\ (if 0 <=? e then n = 100 * Zpos m * 2 ^ e
        else 2 * Z.abs (100 * Zpos m - n * 2 ^ (- e)) <= 2 ^ (- e))
    /\ format_2f (S754_finite s m e) =
         (if s then "-" else "") +:+ decimal (n / 100) +:+ "."
           +:+ decimal (n mod 100 / 10) +:+ decimal (n mod 10).
Proof.
  unfold format_2f. cbn [hundredths].
  destruct (0 <=? e) eqn:He.
  - apply Z.leb_le in He. eexists. split; [reflexivity|].
    split; [|split; reflexivity].
    assert (0 < 2 ^ e) by (apply Z.pow_pos_nonneg; lia). nia.
  - apply Z.leb_gt in He.
    assert (P : 0 < 2 ^ (- e)) by (apply Z.pow_pos_nonneg; lia).
    eexists. split; [reflexivity|].
    split; [apply rne_div_nonneg; lia|].
    split; [apply rne_div_near; exact P | reflexivity].
Qed.

(** ** The download link *)

Lemma list_ind3 {A} (P : list A -> Prop) :
  P [] -> (forall a, P [a]) -> (forall a b, P [a; b]) ->
  (forall a b c l, P l -> P (a :: b :: c :: l)) ->
  forall l, P l.
Proof.
  intros H0 H1 H2 H3. fix IH 1.
  intros [|a [|b [|c l]]]; [apply H0 | apply H1 | apply H2 | apply H3, IH].
Qed.

Lemma b64_index_char i :
  0 <= i < 64 -> b64_index (b64_char i) = Some i /\ is_pad (b64_char i) = false.
Proof.
  intros H.
  assert (G : forallb (fun n => match b64_index (b64_char (Z.of_nat n)) with
                                 | Some j => Z.eqb j (Z.of_nat n) | None => false end
                                && negb (is_pad (b64_char (Z.of_nat n))))
                      (seq 0 64) = true) by (vm_compute; reflexivity).
  rewrite forallb_forall in G. specialize (G (Z.to_nat i)).
  rewrite Z2Nat.id in G by lia.
  assert (I : In (Z.to_nat i) (seq 0 64)) by (apply in_seq; lia).
  apply G in I. apply andb_true_iff in I as [I1 I2].
  destruct (b64_index (b64_char i)) as [j|]; [|discriminate].
  apply Z.eqb_eq in I1. subst j. split; [reflexivity|].
  now apply negb_true_iff in I2.
Qed.

Lemma sextets a b c :
  is_byte a -> is_byte b -> is_byte c ->
  0 <= a / 4 < 64 /\ 0 <= a mod 4 * 16 + b / 16 < 64
  /\ 0 <= b mod 16 * 4 + c / 64 < 64 /\ 0 <= c mod 64 < 64
  /\ 0 <= a mod 4 * 16 < 64 /\ 0 <= b mod 16 * 4 < 64.
Proof. unfold is_byte. intros. repeat split; Z.div_mod_to_equations; lia. Qed.

(** X17: the link loses nothing: decoding the base64 text of any byte
    sequence gives the sequence back. *)
Theorem b64_round_trip (bs : list Z) :
  Forall is_byte bs -> b64decode (b64encode bs) = Some bs.
Proof.
  induction bs as [|a|a b|a b c l IH] using list_ind3; intros H.
  - reflexivity.
  - inversion_clear H as [|? ? Ha _].
    destruct (sextets a 0 0 Ha) as (S1 & _ & _ & _ & S5 & _); try (unfold is_byte; lia).
    cbn [b64encode b64decode].
    rewrite (proj1 (b64_index_char _ S1)), (proj1 (b64_index_char _ S5)).
    cbn. do 2 f_equal. unfold is_byte in Ha. Z.div_mod_to_equations; lia.
  - inversion_clear H as [|? ? Ha H']. inversion_clear H' as [|? ? Hb _].
    destruct (sextets a b 0 Ha Hb) as (S1 & S2 & _ & _ & _ & S6); try (unfold is_byte; lia).
    cbn [b64encode b64decode].
    rewrite (proj1 (b64_index_char _ S1)), (proj1 (b64_index_char _ S2)).
    rewrite (proj2 (b64_index_char _ S6)), (proj1 (b64_index_char _ S6)).
    cbn. unfold is_byte in *.
    f_equal. f_equal; [|f_equal]; Z.div_mod_to_equations; lia.
  - inversion_clear H as [|? ? Ha H']. inversion_clear H' as [|? ? Hb H''].
    inversion_clear H'' as [|? ? Hc Hl].
    destruct (sextets a b c Ha Hb Hc) as (S1 & S2 & S3 & S4 & _ & _).
    cbn [b64encode b64decode].
    rewrite (proj1 (b64_index_char _ S1)), (proj1 (b64_index_char _ S2)).
    rewrite (proj1 (b64_index_char _ S3)), (proj1 (b64_index_char _ S4)).
    rewrite (proj2 (b64_index_char _ S4)). cbn [andb].
    rewrite (IH Hl). unfold is_byte in *.
    f_equal. f_equal; [|f_equal; [|f_equal]]; Z.div_mod_to_equations; lia.
Qed.

Lemma b64_round_trip_witness :
  Forall is_byte [37; 80; 68; 70; 45] /\ b64decode (b64encode [37; 80; 68; 70; 45]) = Some [37; 80; 68; 70; 45].
Proof.
  assert (H : Forall is_byte [37; 80; 68; 70; 45])
    by (repeat constructor; unfold is_byte; lia).
  split; [exact H|]. exact (b64_round_trip _ H).
Defined.

Lemma b64_char_text i : b64_text_char (b64_char i) = true.
Proof.
  unfold b64_char.
  assert (G : forallb b64_text_char (list_ascii_of_string b64_alphabet) = true)
    by (vm_compute; reflexivity).
  rewrite forallb_forall in G.
  destruct (nth_in_or_default (Z.to_nat i) (list_ascii_of_string b64_alphabet) "A"%char)
    as [I | E]; [now apply G | now rewrite E].
Qed.

Lemma text_char_not_markup c :
  b64_text_char c = true -> ~ In c markup_chars.
Proof.
  intros H I. unfold markup_chars in I. cbn [In] in I.
  repeat (destruct I as [I|I]; [subst c; vm_compute in H; discriminate|]).
  contradiction.
Qed.

(** X18: whatever the bytes of the PDF, the base64 text has four
    characters for every three bytes (rounded up) and consists of
    letters, digits, [+], [/] and [=] only: it contains no quote, angle
    bracket, ampersand or space, so it cannot end the [href] attribute
    of the link that is rendered as raw HTML. *)
Theorem b64_text_is_inert (bs : list Z) :
  Z.of_nat (String.length (b64encode bs)) = 4 * ((Z.of_nat (length bs) + 2) / 3)
  /\ Forall (fun c => b64_text_char c = true /\ ~ In c markup_chars)
            (list_ascii_of_string (b64encode bs)).
Proof.
  induction bs as [|a|a b|a b c l [IH1 IH2]] using list_ind3.
  - split; [reflexivity | constructor].
  - split; [reflexivity|]. cbn [b64encode list_ascii_of_string].
    repeat constructor; try apply b64_char_text;
      try (apply text_char_not_markup, b64_char_text);
      try (apply text_char_not_markup; reflexivity).
  - split; [reflexivity|]. cbn [b64encode list_ascii_of_string].
    repeat constructor; try apply b64_char_text;
      try (apply text_char_not_markup, b64_char_text);
      try (apply text_char_not_markup; reflexivity).
  - split.
    + cbn [b64encode String.length length]. rewrite !Nat2Z.inj_succ, IH1.
      Z.div_mod_to_equations. lia.
    + cbn [b64encode list_ascii_of_string].
      repeat (constructor; [split; [apply b64_char_text
                                   | apply text_char_not_markup, b64_char_text]|]).
      exact IH2.
Qed.
